(** * PoolConfig (src/utils/poolconfig.py): price, sqrt-price and tick helper

    A shallow embedding of the Python class [PoolConfig].  An instance is its
    attribute dictionary; a method is a computation that threads that
    dictionary and either returns a Python value or raises an exception.
    Python floats are IEEE 754 binary64 numbers, taken from the Standard
    Library's [SpecFloat] (sign, mantissa, exponent; round to nearest even).
    The C library's natural logarithm, which [math.log] calls and which
    IEEE 754 does not pin down, is a parameter of the development. *)

From Stdlib Require Import ZArith QArith Lia Bool List.
From Stdlib Require Import Floats.SpecFloat.
From stdpp Require Import base option gmap strings.

#[local] Set Warnings "-register-all".
Local Open Scope string_scope.
Local Open Scope Z_scope.

(** ** Python values and exceptions *)

Abbreviation float := spec_float.

Inductive value : Type :=
| VNone
| VNotImplemented
| VInt (z : Z)
| VFloat (f : float)
| VStr (s : string)
| VList (l : list value).

(** The two ways a [ValueError] arises in this module. *)
Inductive value_error : Type :=
| MathDomainError      (* "math domain error" *)
| NaNToInteger.        (* "cannot convert float NaN to integer" *)

Inductive exn : Type :=
| AttributeError (attr : string)
| TypeError
| ValueError (why : value_error)
| OverflowError
| ZeroDivisionError
| NotImplementedError.

Inductive result (A : Type) : Type :=
| Ok (a : A)
| Raise (e : exn).
Arguments Ok {A} a.
Arguments Raise {A} e.

Definition is_Ok {A} (r : result A) : Prop := ∃ a, r = Ok a.

Definition result_bind {A B} (r : result A) (k : A -> result B) : result B :=
  match r with
  | Ok a => k a
  | Raise e => Raise e
  end.

#[global] Instance result_ret : MRet result := fun A a => Ok a.
#[global] Instance result_mbind : MBind result := fun A B k r => result_bind r k.

(** ** binary64 arithmetic *)

Module F64.

Definition prec : Z := 53.
Definition emax : Z := 1024.

Definition valid (x : float) : bool := valid_binary prec emax x.

Definition sqrt : float -> float := SFsqrt prec emax.
Definition mul : float -> float -> float := SFmul prec emax.
Definition div : float -> float -> float := SFdiv prec emax.
Definition add : float -> float -> float := SFadd prec emax.
Definition of_Z (z : Z) : float := binary_normalize prec emax z 0 false.

Definition is_nan (x : float) : bool :=
  match x with S754_nan => true | _ => false end.
Definition is_inf (x : float) : bool :=
  match x with S754_infinity _ => true | _ => false end.
Definition is_finite (x : float) : bool :=
  match x with S754_zero _ | S754_finite _ _ _ => true | _ => false end.
Definition is_zero (x : float) : bool :=
  match x with S754_zero _ => true | _ => false end.

Definition zero : float := S754_zero false.
Definition one : float := S754_finite false 4503599627370496 (-52).
Definition half : float := S754_finite false 4503599627370496 (-53).
Definition two : float := S754_finite false 4503599627370496 (-51).

(** [0 < x] and [x <= 0] as C compares doubles: false on NaN. *)
Definition gt0 (x : float) : bool := SFltb zero x.
Definition le0 (x : float) : bool := SFleb x zero.

(** The integer part of a finite float, rounded toward zero (C's cast,
    Python's [int]) and toward minus infinity (C's [floor]). *)
Definition signed (s : bool) (n : Z) : Z := if s then - n else n.

Definition trunc (x : float) : Z :=
  match x with
  | S754_finite s m e =>
      if 0 <=? e then signed s (Z.pos m * 2 ^ e)
      else signed s (Z.pos m / 2 ^ (- e))
  | _ => 0
  end.

Definition floor (x : float) : Z :=
  match x with
  | S754_finite s m e =>
      if 0 <=? e then signed s (Z.pos m) * 2 ^ e
      else signed s (Z.pos m) / 2 ^ (- e)
  | _ => 0
  end.

(** [0 <= x] as C compares doubles. *)
Definition ge0 (x : float) : bool := SFleb zero x.

(** A double that stands for a real number [>= 0]. *)
Definition nonneg_real (x : float) : bool := valid x && is_finite x && ge0 x.

(** The float [2.0 ** 96]. *)
Definition q96 : float := S754_finite false 4503599627370496 44.

(** [x] is a zero or a finite float of sign [s], with a mantissa of at
    most 53 bits, whose exponent is at most [E] and whose magnitude is below
    [2^K]. *)
Definition within (s : bool) (E K : Z) (x : float) : Prop :=
  match x with
  | S754_zero _ => True
  | S754_finite s' m e =>
      s' = s ∧ -1074 ≤ e ≤ E
      ∧ Zdigits2 (Z.pos m) ≤ 53 ∧ Zdigits2 (Z.pos m) + e ≤ K
  | _ => False
  end.

(** [floor(x * 2^k)] in exact arithmetic, for a finite [x]. *)
Definition floor_scaled (x : float) (k : Z) : Z :=
  match x with
  | S754_finite s m e =>
      if 0 <=? e + k then signed s (Z.pos m) * 2 ^ (e + k)
      else signed s (Z.pos m) / 2 ^ (- (e + k))
  | _ => 0
  end.

End F64.

(** ** The pieces of the Python runtime the class uses *)

(** [PyLong_AsDouble]: the nearest double, or [OverflowError]. *)
Definition float_of_int (z : Z) : result float :=
  match F64.of_Z z with
  | S754_infinity _ => Raise OverflowError
  | f => Ok f
  end.

(** [PyFloat_AsDouble] on the values modelled here. *)
Definition as_double (v : value) : result float :=
  match v with
  | VFloat f => Ok f
  | VInt z => float_of_int z
  | _ => Raise TypeError
  end.

(** [PyLong_FromDouble], after the caller has rounded to an integer. *)
Definition int_from_double (round : float -> Z) (x : float) : result Z :=
  match x with
  | S754_infinity _ => Raise OverflowError
  | S754_nan => Raise (ValueError NaNToInteger)
  | _ => Ok (round x)
  end.

(** [int(x)] for a float [x]. *)
Definition int_of_float : float -> result Z := int_from_double F64.trunc.

(** [math.floor(x)] for a float [x]. *)
Definition math_floor : float -> result Z := int_from_double F64.floor.

(** [float / float]. *)
Definition float_div (a b : float) : result float :=
  if F64.is_zero b then Raise ZeroDivisionError else Ok (F64.div a b).

(** [int / int]: the correctly rounded quotient. *)
Definition int_true_divide (a b : Z) : result float :=
  match a, b with
  | _, Z0 => Raise ZeroDivisionError
  | Z0, _ => Ok (S754_zero (b <? 0))
  | _, _ =>
      match F64.div (S754_finite (a <? 0) (Z.to_pos (Z.abs a)) 0)
                    (S754_finite (b <? 0) (Z.to_pos (Z.abs b)) 0) with
      | S754_infinity _ => Raise OverflowError
      | f => Ok f
      end
  end.

(** [v / w] (true division). *)
Definition truediv (v w : value) : result float :=
  match v, w with
  | VInt a, VInt b => int_true_divide a b
  | VInt _, VFloat _ | VFloat _, VInt _ | VFloat _, VFloat _ =>
      a ← as_double v; b ← as_double w; float_div a b
  | _, _ => Raise TypeError
  end.

(** [x * w] for a float [x]. *)
Definition float_mul (x : float) (w : value) : result float :=
  match w with
  | VInt _ | VFloat _ => b ← as_double w; Ok (F64.mul x b)
  | _ => Raise TypeError
  end.

(** [math_1] of mathmodule.c with [can_overflow = 0]: call a C function on
    a double and turn an invalid result into an exception. *)
Definition math_1 (func : float -> float) (arg : value) : result float :=
  x ← as_double arg;
  let r := func x in
  if F64.is_nan r && negb (F64.is_nan x) then Raise (ValueError MathDomainError)
  else if F64.is_inf r && F64.is_finite x then Raise (ValueError MathDomainError)
  else Ok r.

(** [math.sqrt]. *)
Definition math_sqrt : value -> result float := math_1 F64.sqrt.

(** ** [math.log] *)

Section Libm.

(** The C library's [log] on doubles. *)
Variable libm_log : float -> float.

(** [m_log] of mathmodule.c: the wrapper that fixes the special cases. *)
Definition m_log (x : float) : float :=
  if F64.is_finite x then
    if F64.gt0 x then libm_log x
    else if F64.is_zero x then S754_infinity true
    else S754_nan
  else if F64.is_nan x then x
  else if F64.gt0 x then x
  else S754_nan.

(** [_PyLong_Frexp] for a positive integer too large for a double: the
    53-bit fraction in [0.5, 1) and the binary exponent. *)
Definition long_frexp (z : Z) : float * Z :=
  let d := Zdigits2 z in
  let x := binary_normalize F64.prec F64.emax z (- d) false in
  if SFeqb x F64.one then (F64.half, d + 1) else (x, d).

(** [loghelper] of mathmodule.c. *)
Definition loghelper (arg : value) : result float :=
  match arg with
  | VInt z =>
      if z <=? 0 then Raise (ValueError MathDomainError)
      else
        match float_of_int z with
        | Ok x => Ok (m_log x)
        | Raise _ =>
            let '(x, e) := long_frexp z in
            Ok (F64.add (m_log x) (F64.mul (m_log F64.two) (F64.of_Z e)))
        end
  | _ => math_1 m_log arg
  end.

(** [math.log(x, base)]. *)
Definition math_log (x base : value) : result float :=
  num ← loghelper x;
  den ← loghelper base;
  float_div num den.

End Libm.

(** ** Objects and methods *)

(** An instance is its [__dict__].  The class itself binds only its five
    methods, so a data attribute is found in the dictionary or not at all. *)
Abbreviation obj := (gmap string value).

(** A method body: reads and writes [self], returns or raises.  What was
    assigned before an exception stays assigned. *)
Definition M (A : Type) : Type := obj -> result A * obj.

Definition ret {A} (a : A) : M A := fun self => (Ok a, self).

Definition bind {A B} (c : M A) (k : A -> M B) : M B :=
  fun self =>
    match c self with
    | (Ok a, self') => k a self'
    | (Raise e, self') => (Raise e, self')
    end.

#[global] Instance M_ret : MRet M := @ret.
#[global] Instance M_bind : MBind M := fun A B k c => bind c k.

Definition lift {A} (r : result A) : M A := fun self => (r, self).

Definition getattr (name : string) : M value :=
  fun self =>
    match self !! name with
    | Some v => (Ok v, self)
    | None => (Raise (AttributeError name), self)
    end.

Definition setattr (name : string) (v : value) : M unit :=
  fun self => (Ok tt, <[name := v]> self).

Module PoolConfig.

Definition __init__ (initial upper_bound lower_bound : value) : M unit :=
  setattr "token0_initial" initial;;
  setattr "token0_upper_bound" upper_bound;;
  setattr "token0_lower_bound" lower_bound;;
  setattr "token1_initial" (VInt 1).

(** [PoolConfig(initial, upper_bound, lower_bound)]: a fresh instance after
    [__init__]. *)
Definition new (initial upper_bound lower_bound : value) : obj :=
  snd (__init__ initial upper_bound lower_bound ∅).

Definition set_prices : M value :=
  initial_price ←
    (a ← getattr "initial"; b ← getattr "token1_initial";
     q ← lift (truediv a b); lift (math_sqrt (VFloat q)));
  setattr "initial_price" (VFloat initial_price);;
  upper_price_bound ←
    (a ← getattr "token0_upper_bound"; b ← getattr "token1_initial";
     q ← lift (truediv a b); lift (math_sqrt (VFloat q)));
  setattr "upper_price_bound" (VFloat upper_price_bound);;
  lower_price_bound ←
    (a ← getattr "token0_lower_bound"; b ← getattr "token1_initial";
     q ← lift (truediv a b); lift (math_sqrt (VFloat q)));
  setattr "lower_price_bound" (VFloat lower_price_bound);;
  p1 ← getattr "initial_price";
  p2 ← getattr "upper_price_bound";
  p3 ← getattr "lower_price_bound";
  mret (VList [p1; p2; p3]).

Definition set_price_to_sqrtp : M value :=
  let q96 := VInt (2 ^ 96) in
  initial_price_sqrtp ←
    (p ← getattr "initial_price"; r ← lift (math_sqrt p);
     x ← lift (float_mul r q96); lift (int_of_float x));
  setattr "initial_price_sqrtp" (VInt initial_price_sqrtp);;
  upper_price_sqrtp ←
    (p ← getattr "upper_price_bound"; r ← lift (math_sqrt p);
     x ← lift (float_mul r q96); lift (int_of_float x));
  setattr "upper_price_sqrtp" (VInt upper_price_sqrtp);;
  lower_price_sqrtp ←
    (p ← getattr "lower_price_bound"; r ← lift (math_sqrt p);
     x ← lift (float_mul r q96); lift (int_of_float x));
  setattr "lower_price_sqrtp" (VInt lower_price_sqrtp);;
  s1 ← getattr "initial_price_sqrtp";
  s2 ← getattr "upper_price_sqrtp";
  s3 ← getattr "lower_price_sqrtp";
  mret (VList [s1; s2; s3]).

(** The float literal [1.0001], i.e. 4504049987333233 * 2^-52. *)
Definition tick_base : float := S754_finite false 4504049987333233 (-52).

Section Ticks.
Variable libm_log : float -> float.

Definition set_price_ticks : M value :=
  initial_tick ←
    (p ← getattr "initial_price";
     l ← lift (math_log libm_log p (VFloat tick_base)); lift (math_floor l));
  setattr "initial_tick" (VInt initial_tick);;
  upper_tick ←
    (p ← getattr "upper_price_bound";
     l ← lift (math_log libm_log p (VFloat tick_base)); lift (math_floor l));
  setattr "upper_tick" (VInt upper_tick);;
  lower_tick ←
    (p ← getattr "lower_price_bound";
     l ← lift (math_log libm_log p (VFloat tick_base)); lift (math_floor l));
  setattr "lower_tick" (VInt lower_tick);;
  t1 ← getattr "initial_tick";
  t2 ← getattr "upper_tick";
  t3 ← getattr "lower_tick";
  mret (VList [t1; t2; t3]).
End Ticks.

(** One tick, [math.floor(math.log(v, 1.0001))], as each of the three
    assignments of [set_price_ticks] computes it. *)
Definition tick_of (libm_log : float -> float) (v : value) : result Z :=
  l ← math_log libm_log v (VFloat tick_base); math_floor l.

(** The body is [pass]: the call returns [None]. *)
Definition calculate_liqudiry : M value := mret VNone.

End PoolConfig.

(** ** Calling methods one after another *)

Inductive method : Type :=
| SetPrices
| SetPriceToSqrtp
| SetPriceTicks
| CalculateLiqudiry.

Section Calls.
Variable libm_log : float -> float.

Definition call (m : method) : M value :=
  match m with
  | SetPrices => PoolConfig.set_prices
  | SetPriceToSqrtp => PoolConfig.set_price_to_sqrtp
  | SetPriceTicks => PoolConfig.set_price_ticks libm_log
  | CalculateLiqudiry => PoolConfig.calculate_liqudiry
  end.

(** The instance after a caller has invoked the methods [ms] in order,
    going on after an exception. *)
Fixpoint calls (ms : list method) (self : obj) : obj :=
  match ms with
  | [] => self
  | m :: ms' => calls ms' (snd (call m self))
  end.
End Calls.

(** ** Which attributes a computation may assign *)

(** [self'] agrees with [self] on every attribute outside [fields]. *)
Definition only_changes (fields : list string) (self self' : obj) : Prop :=
  ∀ k : string, k ∉ fields → self' !! k = self !! k.

Definition writes_only {A} (fields : list string) (c : M A) : Prop :=
  ∀ self : obj, only_changes fields self (snd (c self)).

Definition price_fields : list string :=
  ["initial_price"; "upper_price_bound"; "lower_price_bound"].
Definition sqrtp_fields : list string :=
  ["initial_price_sqrtp"; "upper_price_sqrtp"; "lower_price_sqrtp"].
Definition tick_fields : list string :=
  ["initial_tick"; "upper_tick"; "lower_tick"].
Definition constructor_fields : list string :=
  ["token0_initial"; "token0_upper_bound"; "token0_lower_bound"; "token1_initial"].

(** The fields a method computes. *)
Definition derived_fields (m : method) : list string :=
  match m with
  | SetPrices => price_fields
  | SetPriceToSqrtp => sqrtp_fields
  | SetPriceTicks => tick_fields
  | CalculateLiqudiry => []
  end.

(** What the spec asks of [computeLiquidity]: the call raises
    [NotImplementedError] or hands back the [NotImplemented] object. *)
Definition signals_not_implemented (r : result value) : Prop :=
  match r with
  | Raise NotImplementedError => True
  | Ok VNotImplemented => True
  | _ => False
  end.

(** A number [<= 0]. *)
Definition nonpositive (v : value) : bool :=
  match v with
  | VInt z => z <=? 0
  | VFloat x => F64.le0 x
  | _ => false
  end.

(** What the properties below ask of the C library's [log]: on a positive
    finite double its result is a finite double below [2^11] in magnitude
    (the true logarithm stays below 710), and at 1.0001 it is a non-zero
    double of magnitude at least [2^-14] (the true value is about
    [1.6 * 2^-14]). *)
Definition libm_sane (libm_log : float -> float) : Prop :=
  (∀ x : float,
     F64.valid x = true → F64.is_finite x = true → F64.gt0 x = true →
     ∃ s : bool, F64.within s 10 11 (libm_log x))
  ∧ (∃ (s : bool) (m : positive) (e : Z),
       libm_log PoolConfig.tick_base = S754_finite s m e
       ∧ Zdigits2 (Z.pos m) ≤ 53
       ∧ -13 ≤ Zdigits2 (Z.pos m) + e).

(** A double that stands for a real number. *)
Definition real_number (x : float) : bool := F64.valid x && F64.is_finite x.

(** A C library's [log] at the arguments the examples below use: 1.0001,
    sqrt(2000), sqrt(3000) and sqrt(1000).  Elsewhere the table is silent
    and answers 0.0. *)
Definition libm_log_table (x : float) : float :=
  if SFeqb x PoolConfig.tick_base
  then S754_finite false 7378328719195348 (-66)
  else if SFeqb x (S754_finite false 6293971818901970 (-47))
  then S754_finite false 8557855371118302 (-51)
  else if SFeqb x (S754_finite false 7708509705883379 (-47))
  then S754_finite false 4507184249282610 (-50)
  else if SFeqb x (S754_finite false 8901020307485223 (-48))
  then S754_finite false 7777441025097632 (-51)
  else S754_zero false.

(** [PoolConfig(2000, 3000, 1000)] with the price fields holding the
    doubles sqrt(2000), sqrt(3000) and sqrt(1000). *)
Definition priced_2000_3000_1000 : obj :=
  <["lower_price_bound" := VFloat (S754_finite false 8901020307485223 (-48))]>
    (<["upper_price_bound" := VFloat (S754_finite false 7708509705883379 (-47))]>
       (<["initial_price" := VFloat (S754_finite false 6293971818901970 (-47))]>
          (PoolConfig.new (VInt 2000) (VInt 3000) (VInt 1000)))).

(** [PoolConfig(2000, 0, 1000)] with the price fields holding sqrt(2000),
    0.0 and sqrt(1000). *)
Definition priced_2000_0_1000 : obj :=
  <["lower_price_bound" := VFloat (S754_finite false 8901020307485223 (-48))]>
    (<["upper_price_bound" := VFloat (S754_zero false)]>
       (<["initial_price" := VFloat (S754_finite false 6293971818901970 (-47))]>
          (PoolConfig.new (VInt 2000) (VInt 0) (VInt 1000)))).

Definition is_numeric (v : value) : bool :=
  match v with
  | VInt _ | VFloat _ => true
  | _ => false
  end.

(** ** Further notions for the properties of the method bodies *)

(** [x < 0] as C compares doubles: false on NaN and on both zeros. *)
Definition float_lt0 (x : float) : bool := SFltb x F64.zero.

(** The double a constructor bound stands for, when it stands for one
    exactly: a finite float, or an integer below [2^53] in magnitude. *)
Definition bound_double (v : value) : option float :=
  match v with
  | VFloat x => if F64.valid x && F64.is_finite x then Some x else None
  | VInt a => if Z.abs a <? 2 ^ 53 then Some (F64.of_Z a) else None
  | _ => None
  end.

(** One price, [math.sqrt(v / b)], as each of the three assignments of
    [set_prices] computes it from a bound [v] and [token1_initial = b]. *)
Definition price_of (v b : value) : result float :=
  q ← truediv v b; math_sqrt (VFloat q).

(** One sqrtp, [int(math.sqrt(v) * 2**96)], as each of the three
    assignments of [set_price_to_sqrtp] computes it. *)
Definition sqrtp_of (v : value) : result Z :=
  r ← math_sqrt v; x ← float_mul r (VInt (2 ^ 96)); int_of_float x.

(** Reading [self.<name>] and computing with it; a missing attribute is an
    [AttributeError]. *)
Definition read_field {A} (name : string) (f : value -> result A)
    (self : obj) : result A :=
  match self !! name with
  | Some v => f v
  | None => Raise (AttributeError name)
  end.

(** The same for a computation that also reads [self.token1_initial],
    after [self.<name>]. *)
Definition read_bound (name : string) (self : obj) : result float :=
  match self !! name with
  | Some v => read_field "token1_initial" (price_of v) self
  | None => Raise (AttributeError name)
  end.

(** The first element of a list that fails a test, if any. *)
Fixpoint first_bad (ok : float -> bool) (ps : list float) : option float :=
  match ps with
  | [] => None
  | p :: ps' => if ok p then first_bad ok ps' else Some p
  end.

(** A double that stands for a real number [> 0]. *)
Definition positive_real (x : float) : bool := real_number x && F64.gt0 x.

(** The exception a price that is not a real number [>= 0] ends in, in
    [set_price_to_sqrtp]: a NaN and [+inf] get through [math.sqrt] and the
    product and fail in [int]; anything negative fails in [math.sqrt]. *)
Definition sqrtp_error (p : float) : exn :=
  match p with
  | S754_nan => ValueError NaNToInteger
  | S754_infinity false => OverflowError
  | _ => ValueError MathDomainError
  end.

(** The exception a price that is not a real number [> 0] ends in, in
    [set_price_ticks]: a NaN and [+inf] get through [math.log] and the
    division and fail in [math.floor]; anything [<= 0] fails in [math.log]. *)
Definition tick_error (p : float) : exn :=
  match p with
  | S754_nan => ValueError NaNToInteger
  | S754_infinity false => OverflowError
  | _ => ValueError MathDomainError
  end.

(** [PoolConfig(2000, 3000, 1000)] after the caller has bound the attribute
    [initial] that [set_prices] reads, as in [cfg.initial = 2000]. *)
Definition patched_2000_3000_1000 : obj :=
  <["initial" := VInt 2000]> (PoolConfig.new (VInt 2000) (VInt 3000) (VInt 1000)).

(** The same for [PoolConfig(2000, -4, 1000)]. *)
Definition patched_2000_neg4_1000 : obj :=
  <["initial" := VInt 2000]> (PoolConfig.new (VInt 2000) (VInt (-4)) (VInt 1000)).

(** [PoolConfig(2000, 3000, 1000)] with the price fields holding sqrt(2000),
    -2.0 and sqrt(1000). *)
Definition priced_2000_neg_1000 : obj :=
  <["lower_price_bound" := VFloat (S754_finite false 8901020307485223 (-48))]>
    (<["upper_price_bound" := VFloat (S754_finite true 4503599627370496 (-51))]>
       (<["initial_price" := VFloat (S754_finite false 6293971818901970 (-47))]>
          (PoolConfig.new (VInt 2000) (VInt 3000) (VInt 1000)))).

(** A finite double [>= 0] as an integer: [x * 2^1074]. *)
Definition units (x : float) : Z :=
  match x with
  | S754_finite false m e => Z.pos m * 2 ^ (e + 1074)
  | _ => 0
  end.

(** [x <= y] as C compares doubles. *)
Definition float_le (x y : float) : bool := SFleb x y.

(** Where the exact square root of [q * q + r] lies between [q] and
    [q + 1], as [SFsqrt] records it for the final rounding. *)
Definition sqrt_loc (q r : Z) : location :=
  if r =? 0 then loc_Exact else loc_Inexact (if r <=? q then Lt else Gt).

(** ** The bracket of a tick, in exact arithmetic *)

(** The rational number a finite double stands for. *)
Definition float_value (x : float) : Q :=
  match x with
  | S754_finite s m e => (inject_Z (F64.signed s (Z.pos m)) * Qpower 2 e)%Q
  | _ => 0%Q
  end.

(** [base^tick <= price < base^(tick+1)] on rational numbers, as the
    specification words the floor of a logarithm. *)
Definition in_tick_bracket (base : Q) (tick : Z) (price : Q) : bool :=
  Qle_bool (Qpower base tick) price
  && negb (Qle_bool (Qpower base (tick + 1)) price).

(** The tick as the method computes it when nothing fails: the floor of the
    double quotient of the two logarithms the C library returns. *)
Definition quotient_tick (libm_log : float -> float) (p : float) : Z :=
  F64.floor (F64.div (libm_log p) (libm_log PoolConfig.tick_base)).

(** The double 1.0095447887339337, just below [1.0001^95]. *)
Definition price_below_tick_95 : float :=
  S754_finite false 4546585534355970 (-52).

(** [libm_log_table] extended to that price, with the correctly rounded
    logarithm 0.009499525031663245. *)
Definition libm_log_rounded (x : float) : float :=
  if SFeqb x price_below_tick_95
  then S754_finite false 5476103346277797 (-59)
  else libm_log_table x.

(** [PoolConfig(2000, 3000, 1000)] with [initial_price] holding that price
    and the other two price fields holding sqrt(3000) and sqrt(1000). *)
Definition priced_below_tick_95 : obj :=
  <["initial_price" := VFloat price_below_tick_95]> priced_2000_3000_1000.

(** * Properties *)

(** ** Frame reasoning *)

Lemma only_changes_refl fields self : only_changes fields self self.
Proof. by intros k _. Qed.

Lemma only_changes_trans fields s1 s2 s3 :
  only_changes fields s1 s2 → only_changes fields s2 s3 →
  only_changes fields s1 s3.
Proof. intros H12 H23 k Hk. rewrite (H23 k Hk). by apply H12. Qed.

Lemma writes_only_ret {A} fields (a : A) : writes_only fields (mret a : M A).
Proof. intros self. apply only_changes_refl. Qed.

Lemma writes_only_lift {A} fields (r : result A) : writes_only fields (lift r).
Proof. intros self. apply only_changes_refl. Qed.

Lemma writes_only_getattr fields name : writes_only fields (getattr name).
Proof.
  intros self. unfold getattr.
  destruct (self !! name); apply only_changes_refl.
Qed.

Lemma writes_only_setattr fields name v :
  name ∈ fields → writes_only fields (setattr name v).
Proof.
  intros Hin self k Hk. cbn.
  apply lookup_insert_ne. intros ->. by apply Hk.
Qed.

Lemma writes_only_bind {A B} fields (c : M A) (k : A → M B) :
  writes_only fields c → (∀ a, writes_only fields (k a)) →
  writes_only fields (c ≫= k).
Proof.
  intros Hc Hk self.
  unfold mbind, M_bind, bind.
  specialize (Hc self).
  destruct (c self) as [[a|e] self']; cbn in *; [|done].
  eapply only_changes_trans; [exact Hc | apply Hk].
Qed.

Ltac frame :=
  repeat first
    [ apply writes_only_bind; [|intros ?]
    | apply writes_only_ret
    | apply writes_only_lift
    | apply writes_only_getattr
    | apply writes_only_setattr; set_solver ].

Lemma set_prices_writes : writes_only price_fields PoolConfig.set_prices.
Proof. unfold PoolConfig.set_prices, price_fields. frame. Qed.

Lemma set_price_to_sqrtp_writes :
  writes_only sqrtp_fields PoolConfig.set_price_to_sqrtp.
Proof. unfold PoolConfig.set_price_to_sqrtp, sqrtp_fields. frame. Qed.

Lemma set_price_ticks_writes libm_log :
  writes_only tick_fields (PoolConfig.set_price_ticks libm_log).
Proof. unfold PoolConfig.set_price_ticks, tick_fields. frame. Qed.

Lemma calculate_liqudiry_run self :
  PoolConfig.calculate_liqudiry self = (Ok VNone, self).
Proof. reflexivity. Qed.

Lemma call_writes libm_log m : writes_only (derived_fields m) (call libm_log m).
Proof.
  destruct m; cbn [call derived_fields].
  - apply set_prices_writes.
  - apply set_price_to_sqrtp_writes.
  - apply set_price_ticks_writes.
  - intros self. apply only_changes_refl.
Qed.

(** ** Reading an attribute that is not there *)

Lemma getattr_missing {A} name (k : value → M A) self :
  self !! name = None →
  (getattr name ≫= k) self = (Raise (AttributeError name), self).
Proof.
  intros H. unfold mbind, M_bind, bind, getattr. by rewrite H.
Qed.

Lemma bind_raise {A B} (c : M A) (k : A → M B) e self self' :
  c self = (Raise e, self') → (c ≫= k) self = (Raise e, self').
Proof. intros H. unfold mbind, M_bind, bind. by rewrite H. Qed.

Lemma bind_ok {A B} (c : M A) (k : A → M B) a self self' :
  c self = (Ok a, self') → (c ≫= k) self = k a self'.
Proof. intros H. unfold mbind, M_bind, bind. by rewrite H. Qed.

Lemma set_prices_missing_initial self :
  self !! "initial" = None →
  PoolConfig.set_prices self = (Raise (AttributeError "initial"), self).
Proof.
  intros H. unfold PoolConfig.set_prices.
  apply bind_raise. by apply getattr_missing.
Qed.

Lemma set_price_to_sqrtp_missing_price self :
  self !! "initial_price" = None →
  PoolConfig.set_price_to_sqrtp self
  = (Raise (AttributeError "initial_price"), self).
Proof.
  intros H. unfold PoolConfig.set_price_to_sqrtp.
  apply bind_raise. by apply getattr_missing.
Qed.

Lemma set_price_ticks_missing_price libm_log self :
  self !! "initial_price" = None →
  PoolConfig.set_price_ticks libm_log self
  = (Raise (AttributeError "initial_price"), self).
Proof.
  intros H. unfold PoolConfig.set_price_ticks.
  apply bind_raise. by apply getattr_missing.
Qed.

(** A freshly constructed instance holds the four constructor fields and
    nothing else. *)
Lemma new_dict a b c :
  PoolConfig.new a b c =
    <["token1_initial" := VInt 1]>
      (<["token0_lower_bound" := c]>
         (<["token0_upper_bound" := b]> (<["token0_initial" := a]> ∅))).
Proof. reflexivity. Qed.

Lemma new_lookup a b c k :
  PoolConfig.new a b c !! k =
    if decide (k = "token1_initial") then Some (VInt 1)
    else if decide (k = "token0_lower_bound") then Some c
    else if decide (k = "token0_upper_bound") then Some b
    else if decide (k = "token0_initial") then Some a
    else None.
Proof.
  rewrite new_dict.
  repeat (rewrite lookup_insert; case_decide; [subst; try done|]);
    repeat case_decide; try congruence.
  by rewrite lookup_empty.
Qed.

(** No method call changes anything on a freshly constructed instance. *)
Lemma call_new libm_log m a b c :
  snd (call libm_log m (PoolConfig.new a b c)) = PoolConfig.new a b c.
Proof.
  destruct m; cbn [call].
  - rewrite set_prices_missing_initial; [done|].
    by rewrite new_lookup.
  - rewrite set_price_to_sqrtp_missing_price; [done|].
    by rewrite new_lookup.
  - rewrite set_price_ticks_missing_price; [done|].
    by rewrite new_lookup.
  - done.
Qed.

Lemma calls_new libm_log ms a b c :
  calls libm_log ms (PoolConfig.new a b c) = PoolConfig.new a b c.
Proof.
  induction ms as [|m ms IH]; cbn [calls]; [done|].
  by rewrite call_new.
Qed.

(** ** [set_prices] *)

(** C1 (code defect): on [PoolConfig(2000, 3000, 1000)], [set_prices] does
    not return the three square roots: its first statement reads
    [self.initial], which [__init__] stored as [self.token0_initial], and
    the call raises [AttributeError] with nothing assigned. *)
Theorem set_prices_2000_3000_1000 :
  PoolConfig.set_prices (PoolConfig.new (VInt 2000) (VInt 3000) (VInt 1000))
  = (Raise (AttributeError "initial"),
     PoolConfig.new (VInt 2000) (VInt 3000) (VInt 1000)).
Proof. apply set_prices_missing_initial. by rewrite new_lookup. Qed.

(** With an [initial] attribute in place the same body does return
    [sqrt(2000), sqrt(3000), sqrt(1000)], that is 44.721..., 54.772...,
    31.622...: the misnamed attribute is all that stands in the way. *)
Example set_prices_with_initial_bound :
  fst (PoolConfig.set_prices
         (<["initial" := VInt 2000]>
            (PoolConfig.new (VInt 2000) (VInt 3000) (VInt 1000))))
  = Ok (VList [VFloat (S754_finite false 6293971818901970 (-47));
               VFloat (S754_finite false 7708509705883379 (-47));
               VFloat (S754_finite false 8901020307485223 (-48))]).
Proof. vm_compute. reflexivity. Qed.

(** C2: whatever the constructor arguments, and after any sequence of
    method calls on the instance, [set_prices] raises
    [AttributeError: initial] before it computes anything: the instance is
    left as it was and none of the three price fields is ever assigned. *)
Theorem set_prices_always_attribute_error
    (libm_log : float → float) (a b c : value) (ms : list method) :
  let self := calls libm_log ms (PoolConfig.new a b c) in
  PoolConfig.set_prices self = (Raise (AttributeError "initial"), self)
  ∧ self !! "initial" = None
  ∧ self !! "initial_price" = None
  ∧ self !! "upper_price_bound" = None
  ∧ self !! "lower_price_bound" = None.
Proof.
  cbn zeta. rewrite calls_new.
  split; [apply set_prices_missing_initial|]; by rewrite !new_lookup.
Qed.

(** C6 (code defect): for the ordered positive bounds lower = 1,
    initial = 4, upper = 9, [set_prices] returns no list at all, ordered or
    not: it raises [AttributeError] on [self.initial]. *)
Theorem set_prices_ordered_bounds :
  fst (PoolConfig.set_prices (PoolConfig.new (VInt 4) (VInt 9) (VInt 1)))
  = Raise (AttributeError "initial").
Proof. by rewrite set_prices_missing_initial; [|by rewrite new_lookup]. Qed.

(** C8 (code defect): with a negative bound, [PoolConfig(-4, 3000, 1000)],
    [set_prices] fails with [AttributeError] on [self.initial], not with
    the domain error that [math.sqrt(-4 / 1)] raises; the constructor
    itself accepts the arguments unchecked. *)
Theorem set_prices_negative_bound :
  PoolConfig.__init__ (VInt (-4)) (VInt 3000) (VInt 1000) ∅
  = (Ok tt, PoolConfig.new (VInt (-4)) (VInt 3000) (VInt 1000))
  ∧ fst (PoolConfig.set_prices
           (PoolConfig.new (VInt (-4)) (VInt 3000) (VInt 1000)))
    = Raise (AttributeError "initial")
  ∧ (q ← truediv (VInt (-4)) (VInt 1); math_sqrt (VFloat q))
    = Raise (ValueError MathDomainError).
Proof.
  split; [reflexivity|]. split; [|by vm_compute].
  by rewrite set_prices_missing_initial; [|by rewrite new_lookup].
Qed.

(** ** Methods called before the prices exist *)

(** C9: on a freshly constructed instance, [set_price_to_sqrtp] and
    [set_price_ticks] both fail with [AttributeError] on the missing
    [initial_price]; neither returns a value and neither assigns a field. *)
Theorem sqrtp_and_ticks_before_prices
    (libm_log : float → float) (a b c : value) :
  PoolConfig.set_price_to_sqrtp (PoolConfig.new a b c)
  = (Raise (AttributeError "initial_price"), PoolConfig.new a b c)
  ∧ PoolConfig.set_price_ticks libm_log (PoolConfig.new a b c)
    = (Raise (AttributeError "initial_price"), PoolConfig.new a b c).
Proof.
  split.
  - apply set_price_to_sqrtp_missing_price. by rewrite new_lookup.
  - apply set_price_ticks_missing_price. by rewrite new_lookup.
Qed.

(** ** [calculate_liqudiry] *)

(** C5, as the spec states it, fails: on [PoolConfig(2000, 3000, 1000)] the
    call neither raises [NotImplementedError] nor returns
    [NotImplemented]. *)
Lemma calculate_liqudiry_no_signal :
  ¬ signals_not_implemented
      (fst (PoolConfig.calculate_liqudiry
              (PoolConfig.new (VInt 2000) (VInt 3000) (VInt 1000)))).
Proof. cbn. tauto. Qed.

(** C5 (amended): in every state, [calculate_liqudiry] returns [None]
    without raising and without touching the instance; in particular it
    never returns a number. *)
Theorem calculate_liqudiry_returns_none (self : obj) :
  ∃ v : value,
    PoolConfig.calculate_liqudiry self = (Ok v, self)
    ∧ v = VNone ∧ is_numeric v = false.
Proof. exists VNone. by rewrite calculate_liqudiry_run. Qed.

(** ** Frame *)

(** C10: from any state, every method leaves the four constructor fields
    as they are and changes no attribute outside its own derived fields:
    the price fields for [set_prices], the sqrtp fields for
    [set_price_to_sqrtp], the tick fields for [set_price_ticks], and
    nothing for [calculate_liqudiry]. *)
Theorem methods_frame (libm_log : float → float) (self : obj) :
  (∀ m : method,
     only_changes (derived_fields m) self (snd (call libm_log m self))
     ∧ Forall (λ k, snd (call libm_log m self) !! k = self !! k)
              constructor_fields)
  ∧ only_changes price_fields self (snd (PoolConfig.set_prices self))
  ∧ only_changes sqrtp_fields self (snd (PoolConfig.set_price_to_sqrtp self))
  ∧ only_changes tick_fields self
      (snd (PoolConfig.set_price_ticks libm_log self))
  ∧ snd (PoolConfig.calculate_liqudiry self) = self.
Proof.
  split; [|repeat split].
  - intros m. pose proof (call_writes libm_log m self) as Hm.
    split; [exact Hm|].
    unfold constructor_fields.
    repeat apply List.Forall_cons; try apply List.Forall_nil;
      apply Hm; destruct m; by apply (bool_decide_unpack _).
  - apply set_prices_writes.
  - apply set_price_to_sqrtp_writes.
  - apply set_price_ticks_writes.
Qed.

(** ** Rounding to binary64 *)

Lemma digits2_pos_size (p : positive) : digits2_pos p = Pos.size p.
Proof. induction p; cbn; congruence. Qed.

Lemma Zdigits2_nonneg (n : Z) : 0 ≤ Zdigits2 n.
Proof. destruct n; cbn; lia. Qed.

(** A non-negative integer below [2^k] has at most [k] binary digits. *)
Lemma Zdigits2_le (n k : Z) : 0 ≤ n → 0 ≤ k → n < 2 ^ k → Zdigits2 n ≤ k.
Proof.
  intros Hn Hk Hlt. destruct n as [|p|p]; cbn; [lia| |lia].
  rewrite digits2_pos_size.
  destruct (Z.le_gt_cases (Z.pos (Pos.size p)) k) as [|Hgt]; [done|exfalso].
  assert (2 ^ Z.pos (Pos.size p) ≤ Z.pos p~0) as Hz.
  { rewrite <- (Pos2Z.inj_pow 2). pose proof (Pos.size_le p). lia. }
  assert (2 ^ (k + 1) ≤ 2 ^ Z.pos (Pos.size p)) by (apply Z.pow_le_mono_r; lia).
  rewrite Z.pow_add_r in * by lia. lia.
Qed.

(** A non-negative integer is below two to the number of its digits. *)
Lemma Zdigits2_gt (n : Z) : 0 ≤ n → n < 2 ^ Zdigits2 n.
Proof.
  intros Hn. destruct n as [|p|p]; cbn; [lia| |lia].
  rewrite digits2_pos_size, <- (Pos2Z.inj_pow 2).
  pose proof (Pos.size_gt p). lia.
Qed.

(** Shifting right by one bit halves a non-negative mantissa. *)
Lemma shr_1_m (r : shr_record) :
  0 ≤ shr_m r → shr_m (shr_1 r) = shr_m r / 2.
Proof.
  destruct r as [m rb sb]. cbn [shr_m]. intros Hm.
  destruct m as [|[p|p|]|p]; cbn [shr_1 shr_m].
  - reflexivity.
  - apply Z.div_unique with 1; lia.
  - apply Z.div_unique with 0; lia.
  - reflexivity.
  - lia.
Qed.

Lemma shr_iter_m (p : positive) (r : shr_record) :
  0 ≤ shr_m r → shr_m (SpecFloat.iter_pos shr_1 p r) = shr_m r / 2 ^ Z.pos p.
Proof.
  revert r. induction p as [p IH|p IH|]; intros r Hr; cbn [SpecFloat.iter_pos].
  - assert (0 ≤ shr_m (shr_1 r)) by (rewrite shr_1_m by done; apply Z.div_pos; lia).
    assert (0 ≤ shr_m (SpecFloat.iter_pos shr_1 p (shr_1 r)))
      by (rewrite IH by done; apply Z.div_pos; lia).
    rewrite !IH, shr_1_m, !Z.div_div by lia.
    f_equal. replace (Z.pos p~1) with (1 + Z.pos p + Z.pos p) by lia.
    rewrite !Z.pow_add_r by lia. change (2 ^ 1) with 2. ring.
  - assert (0 ≤ shr_m (SpecFloat.iter_pos shr_1 p r))
      by (rewrite IH by done; apply Z.div_pos; lia).
    rewrite !IH, !Z.div_div by lia.
    f_equal. replace (Z.pos p~0) with (Z.pos p + Z.pos p) by lia.
    by rewrite Z.pow_add_r by lia.
  - rewrite shr_1_m by done. reflexivity.
Qed.

(** The first half of rounding: the mantissa is shifted right until its
    exponent is the one its magnitude calls for. *)
Lemma shr_fexp_spec (m e : Z) (l : location) :
  0 ≤ m →
  let e' := Z.max e (fexp F64.prec F64.emax (Zdigits2 m + e)) in
  snd (shr_fexp F64.prec F64.emax m e l) = e'
  ∧ shr_m (fst (shr_fexp F64.prec F64.emax m e l)) = m / 2 ^ (e' - e).
Proof.
  intros Hm e'. unfold shr_fexp, shr. subst e'.
  assert (shr_m (shr_record_of_loc m l) = m) as Hrec
    by (by destruct l as [|[]]).
  destruct (fexp F64.prec F64.emax (Zdigits2 m + e) - e) as [|n|n] eqn:Hn;
    cbn [fst snd].
  - rewrite Z.max_l by lia. rewrite Z.sub_diag, Z.div_1_r. done.
  - rewrite Z.max_r by lia. split; [lia|].
    rewrite shr_iter_m by (rewrite Hrec; done).
    rewrite Hrec. f_equal. f_equal. lia.
  - rewrite Z.max_l by lia. rewrite Z.sub_diag, Z.div_1_r. done.
Qed.

Lemma round_nearest_even_bounds (m : Z) (l : location) :
  m ≤ round_nearest_even m l ≤ m + 1.
Proof.
  unfold round_nearest_even.
  destruct l as [|[]]; try destruct (Z.even m); lia.
Qed.

Lemma div_pow2_lt (m a n : Z) :
  0 ≤ m < 2 ^ a → 0 ≤ a → 0 ≤ n → m / 2 ^ n < 2 ^ Z.max 0 (a - n).
Proof.
  intros [Hm Hlt] Ha Hn.
  assert (0 < 2 ^ n) by (apply Z.pow_pos_nonneg; lia).
  destruct (Z.le_gt_cases n a) as [Hle|Hgt].
  - rewrite Z.max_r by lia.
    apply Z.div_lt_upper_bound; [done|].
    rewrite <- Z.pow_add_r by lia. by replace (n + (a - n)) with a by lia.
  - rewrite Z.max_l by lia.
    rewrite Z.div_small; [done|]. split; [done|].
    eapply Z.lt_le_trans; [exact Hlt|]. apply Z.pow_le_mono_r; lia.
Qed.

(** Rounding a non-negative mantissa: the result is a zero or a finite
    float of the given sign, never a NaN and, while the magnitude stays
    below [2^1023], never an infinity. *)
Lemma binary_round_aux_within (sx : bool) (mx ex : Z) (lx : location) (E K : Z) :
  0 ≤ mx → ex ≤ E → Zdigits2 mx + ex ≤ K →
  -1074 ≤ E → E ≤ 971 → K ≤ 1023 →
  F64.within sx (Z.max E (K - 52)) (Z.max E K + 1)
    (binary_round_aux F64.prec F64.emax sx mx ex lx).
Proof.
  intros Hmx HE HK HElo HEhi HKhi.
  unfold binary_round_aux.
  pose proof (shr_fexp_spec mx ex lx Hmx) as [He1 Hm1]. cbn zeta in *.
  destruct (shr_fexp F64.prec F64.emax mx ex lx) as [r1 e1]. cbn [fst snd] in *.
  rewrite <- He1 in Hm1.
  set (D := Zdigits2 mx) in *.
  pose proof (Zdigits2_nonneg mx) as HD. fold D in HD.
  pose proof (Zdigits2_gt mx Hmx) as HmxD. fold D in HmxD.
  assert (e1 = Z.max ex (Z.max (D + ex - 53) (-1074))) as He1'
    by exact He1.
  clear He1.
  assert (0 ≤ e1 - ex) as Hsh1 by (clear -He1'; lia).
  set (t := Z.max 0 (D - (e1 - ex))).
  assert (0 ≤ shr_m r1 < 2 ^ t) as Hr1.
  { rewrite Hm1. split; [apply Z.div_pos; [lia|apply Z.pow_pos_nonneg; lia]|].
    apply div_pow2_lt; [by split|exact HD|exact Hsh1]. }
  set (m1 := round_nearest_even (shr_m r1) (loc_of_shr_record r1)).
  pose proof (round_nearest_even_bounds (shr_m r1) (loc_of_shr_record r1)) as Hrne.
  fold m1 in Hrne.
  assert (0 ≤ t) as Ht by (subst t; clear; lia).
  assert (0 ≤ m1 < 2 ^ (t + 1)) as Hm1b.
  { rewrite Z.pow_add_r by lia. change (2 ^ 1) with 2.
    clearbody t m1. clear -Hr1 Hrne. lia. }
  assert (Zdigits2 m1 ≤ t + 1) as Hd1
    by (apply Zdigits2_le; [apply Hm1b|lia|apply Hm1b]).
  pose proof (Zdigits2_nonneg m1) as Hd1nn.
  pose proof (Zdigits2_gt m1 (proj1 Hm1b)) as Hm1d.
  pose proof (shr_fexp_spec m1 e1 loc_Exact (proj1 Hm1b)) as [He2 Hm2].
  cbn zeta in *.
  destruct (shr_fexp F64.prec F64.emax m1 e1 loc_Exact) as [r2 e2].
  cbn [fst snd] in *. rewrite <- He2 in Hm2.
  set (d1 := Zdigits2 m1) in *.
  assert (e2 = Z.max e1 (Z.max (d1 + e1 - 53) (-1074))) as He2'
    by exact He2.
  clear He2.
  assert (0 ≤ e2 - e1) as Hsh2 by (clear -He2'; lia).
  assert (0 ≤ shr_m r2 < 2 ^ Z.max 0 (d1 - (e2 - e1))) as Hr2.
  { rewrite Hm2. split; [apply Z.div_pos; [lia|apply Z.pow_pos_nonneg; lia]|].
    apply div_pow2_lt; [by split; [apply Hm1b|]|exact Hd1nn|exact Hsh2]. }
  destruct (shr_m r2) as [|m2|m2] eqn:Hm2eq; [done| |by destruct Hr2].
  assert (Zdigits2 (Z.pos m2) ≤ Z.max 0 (d1 - (e2 - e1))) as Hd2.
  { apply Zdigits2_le; [done|clear; lia|apply Hr2]. }
  assert (e2 ≤ Z.max E (K - 52)) as He2hi.
  { clearbody d1 m1. subst t.
    clear -HE HK HElo HD He1' Hd1 He2'. lia. }
  replace (e2 <=? F64.emax - F64.prec) with true
    by (symmetry; apply Z.leb_le; unfold F64.emax, F64.prec;
        clear -He2hi HEhi HKhi; lia).
  cbn [F64.within]. clearbody d1 m1. subst t.
  split; [done|]. split; [clear -He2hi He2'; lia|].
  split; [clear -Hd2 He2'; lia|].
  clear -Hd2 He2' He1' Hd1 HE HK HElo HD. lia.
Qed.

Lemma valid_finite_bounds (s : bool) (m : positive) (e : Z) :
  F64.valid (S754_finite s m e) = true →
  Zdigits2 (Z.pos m) ≤ 53 ∧ e ≤ 971 ∧ -1074 ≤ e.
Proof.
  unfold F64.valid, valid_binary, bounded, canonical_mantissa, fexp.
  intros [Hc He]%andb_true_iff. apply Z.eqb_eq in Hc. apply Z.leb_le in He.
  change (emin F64.prec F64.emax) with (-1074) in Hc.
  unfold F64.prec, F64.emax in *. cbn [Zdigits2]. lia.
Qed.

(** The square root of a finite non-negative double is a zero or a
    positive finite double below [2^513]. *)
Lemma sqrt_within (p : float) :
  F64.valid p = true → F64.is_finite p = true → F64.ge0 p = true →
  F64.within false 485 513 (F64.sqrt p).
Proof.
  intros Hv Hf Hp.
  destruct p as [s|s| |s m e]; try done.
  destruct s; [done|].
  apply valid_finite_bounds in Hv as (Hd & Hhi & Hlo).
  unfold F64.sqrt, SFsqrt, SFsqrt_core_binary.
  set (d := Zdigits2 (Z.pos m)) in *.
  assert (1 ≤ d) as Hd1 by (subst d; cbn; lia).
  set (e' := Z.min (fexp F64.prec F64.emax (Z.div2 (d + e + 1))) (Z.div2 e)).
  assert (e' ≤ e / 2) as He' by (subst e'; rewrite (Z.div2_div e); lia).
  clearbody e'.
  set (sh := e - 2 * e').
  assert (0 ≤ sh) as Hsh by (subst sh; Z.div_mod_to_equations; lia).
  set (m' := match sh with
             | 0 => Z.pos m
             | Z.pos _ => Z.shiftl (Z.pos m) sh
             | Z.neg _ => 0
             end).
  assert (m' = Z.pos m * 2 ^ sh) as Hm'.
  { subst m'. destruct sh as [|n|n] eqn:Hn; [lia| |lia].
    apply Z.shiftl_mul_pow2. lia. }
  pose proof (Z.sqrtrem_sqrt m') as Hq.
  destruct (Z.sqrtrem m') as [q r]. cbn [fst] in Hq. subst q.
  pose proof (Zdigits2_gt (Z.pos m) ltac:(lia)) as Hmd. fold d in Hmd.
  assert (0 < 2 ^ sh) by (apply Z.pow_pos_nonneg; lia).
  assert (0 ≤ m' < 2 ^ (d + sh)) as Hm'b.
  { rewrite Hm', Z.pow_add_r by lia. nia. }
  set (j := (d + sh + 1) / 2).
  assert (d + sh ≤ 2 * j ≤ d + sh + 1) as Hj
    by (subst j; Z.div_mod_to_equations; lia).
  assert (Z.sqrt m' < 2 ^ j) as Hsq.
  { apply Z.sqrt_lt_square; [lia|apply Z.pow_nonneg; lia|].
    rewrite <- Z.pow_add_r by lia.
    eapply Z.lt_le_trans; [apply Hm'b|]. apply Z.pow_le_mono_r; lia. }
  pose proof (Z.sqrt_nonneg m') as Hq0.
  assert (Zdigits2 (Z.sqrt m') ≤ j) as Hdq by (apply Zdigits2_le; lia).
  apply (binary_round_aux_within false (Z.sqrt m') e' _ 485 512);
    try (subst sh; Z.div_mod_to_equations; lia).
Qed.

(** Scaling by [2^96] keeps such a square root finite. *)
Lemma mul_q96_within (x : float) :
  F64.within false 485 513 x →
  F64.within false 557 610 (F64.mul x F64.q96).
Proof.
  destruct x as [s|s| |s m e]; try done.
  intros (-> & [Hlo He] & Hd53 & Hd).
  unfold F64.mul, F64.q96, SFmul. cbn [xorb].
  set (d := Zdigits2 (Z.pos m)) in *.
  assert (1 ≤ d) as Hd1 by (subst d; cbn; lia).
  pose proof (Zdigits2_gt (Z.pos m) ltac:(lia)) as Hmd. fold d in Hmd.
  assert (Zdigits2 (Z.pos (m * 4503599627370496)) ≤ d + 52) as Hprod.
  { apply Zdigits2_le; [lia|lia|].
    rewrite Pos2Z.inj_mul, Z.pow_add_r by lia.
    change (2 ^ 52) with 4503599627370496. lia. }
  apply (binary_round_aux_within false _ (e + 44) loc_Exact 529 609); lia.
Qed.

(** [int] and [math.floor] agree on a float that is not negative. *)
Lemma int_of_float_within (E K : Z) (x : float) :
  F64.within false E K x →
  int_of_float x = Ok (F64.floor x) ∧ 0 ≤ F64.floor x.
Proof.
  destruct x as [s|s| |s m e]; try done.
  intros (-> & _).
  unfold int_of_float, int_from_double, F64.trunc, F64.floor, F64.signed.
  destruct (0 <=? e) eqn:He; (split; [done|]).
  - apply Z.leb_le in He. apply Z.mul_nonneg_nonneg; [lia|].
    apply Z.pow_nonneg; lia.
  - apply Z.div_pos; [lia|]. apply Z.pow_pos_nonneg; lia.
Qed.

Lemma math_sqrt_within (p : float) :
  F64.valid p = true → F64.is_finite p = true → F64.ge0 p = true →
  math_sqrt (VFloat p) = Ok (F64.sqrt p).
Proof.
  intros Hv Hf Hp. pose proof (sqrt_within p Hv Hf Hp) as Hw.
  unfold math_sqrt, math_1. cbn.
  by destruct (F64.sqrt p).
Qed.

Lemma float_of_int_q96 : float_of_int (2 ^ 96) = Ok F64.q96.
Proof. by vm_compute. Qed.

(** One sqrtp field: [int(math.sqrt(self.<name>) * q96)]. *)
Lemma sqrtp_field_run (name : string) (self : obj) (p : float) :
  self !! name = Some (VFloat p) →
  F64.valid p = true → F64.is_finite p = true → F64.ge0 p = true →
  (p ← getattr name; r ← lift (math_sqrt p);
   x ← lift (float_mul r (VInt (2 ^ 96))); lift (int_of_float x)) self
  = (Ok (F64.floor (F64.mul (F64.sqrt p) F64.q96)), self)
  ∧ 0 ≤ F64.floor (F64.mul (F64.sqrt p) F64.q96).
Proof.
  intros Hname Hv Hf Hp.
  pose proof (mul_q96_within _ (sqrt_within p Hv Hf Hp)) as Hw.
  apply int_of_float_within in Hw as [Hint Hnn]. split; [|done].
  unfold mbind, M_bind, bind, getattr, lift. rewrite Hname.
  rewrite math_sqrt_within by done.
  unfold float_mul, as_double. rewrite float_of_int_q96. cbn.
  by rewrite Hint.
Qed.

(** *** Scaling by a power of two is exact *)

Lemma Zdigits2_lower (n : Z) : 0 < n → 2 ^ (Zdigits2 n - 1) ≤ n.
Proof.
  intros Hn. destruct n as [|p|p]; [lia| |lia]. cbn [Zdigits2].
  rewrite digits2_pos_size.
  assert (2 ^ Z.pos (Pos.size p) ≤ Z.pos p~0) as Hz.
  { rewrite <- (Pos2Z.inj_pow 2). pose proof (Pos.size_le p). lia. }
  replace (Z.pos (Pos.size p)) with (1 + (Z.pos (Pos.size p) - 1)) in Hz by lia.
  rewrite Z.pow_add_r in Hz by lia. lia.
Qed.

Lemma Zdigits2_unique (n k : Z) :
  0 < k → 2 ^ (k - 1) ≤ n < 2 ^ k → Zdigits2 n = k.
Proof.
  intros Hk [Hlo Hhi].
  assert (0 < n) by (pose proof (Z.pow_pos_nonneg 2 (k - 1)); lia).
  pose proof (Zdigits2_le n k ltac:(lia) ltac:(lia) Hhi) as Hle.
  destruct (Z.eq_dec (Zdigits2 n) k) as [|Hne]; [done|exfalso].
  pose proof (Zdigits2_gt n ltac:(lia)) as Hgt.
  pose proof (Zdigits2_nonneg n).
  assert (2 ^ Zdigits2 n ≤ 2 ^ (k - 1)) by (apply Z.pow_le_mono_r; lia).
  lia.
Qed.

Lemma Zdigits2_mul_pow2 (n j : Z) :
  0 < n → 0 ≤ j → Zdigits2 (n * 2 ^ j) = Zdigits2 n + j.
Proof.
  intros Hn Hj.
  pose proof (Zdigits2_lower n Hn) as Hlo.
  pose proof (Zdigits2_gt n ltac:(lia)) as Hhi.
  assert (1 ≤ Zdigits2 n) by (destruct n; cbn in *; lia).
  assert (0 < 2 ^ j) by (apply Z.pow_pos_nonneg; lia).
  apply Zdigits2_unique; [lia|].
  replace (Zdigits2 n + j - 1) with (Zdigits2 n - 1 + j) by lia.
  rewrite !Z.pow_add_r by lia. nia.
Qed.

Lemma shr_1_exact (k : Z) :
  0 ≤ k →
  shr_1 {| shr_m := 2 * k; shr_r := false; shr_s := false |}
  = {| shr_m := k; shr_r := false; shr_s := false |}.
Proof. intros Hk. destruct k as [|p|p]; [done|done|lia]. Qed.

Lemma shr_iter_exact (p : positive) (k : Z) :
  0 ≤ k →
  SpecFloat.iter_pos shr_1 p
    {| shr_m := k * 2 ^ Z.pos p; shr_r := false; shr_s := false |}
  = {| shr_m := k; shr_r := false; shr_s := false |}.
Proof.
  revert k. induction p as [p IH|p IH|]; intros k Hk; cbn [SpecFloat.iter_pos].
  - assert (0 < 2 ^ Z.pos p) by (apply Z.pow_pos_nonneg; lia).
    replace (k * 2 ^ Z.pos p~1) with (2 * (k * 2 ^ Z.pos p * 2 ^ Z.pos p)).
    2:{ replace (Z.pos p~1) with (1 + Z.pos p + Z.pos p) by lia.
        rewrite !Z.pow_add_r by lia. change (2 ^ 1) with 2. ring. }
    rewrite shr_1_exact by nia. rewrite IH by nia. by rewrite IH.
  - assert (0 < 2 ^ Z.pos p) by (apply Z.pow_pos_nonneg; lia).
    replace (k * 2 ^ Z.pos p~0) with (k * 2 ^ Z.pos p * 2 ^ Z.pos p).
    2:{ replace (Z.pos p~0) with (Z.pos p + Z.pos p) by lia.
        rewrite !Z.pow_add_r by lia. ring. }
    rewrite IH by nia. by rewrite IH.
  - replace (k * 2 ^ 1) with (2 * k) by (change (2 ^ 1) with 2; lia).
    by apply shr_1_exact.
Qed.

Lemma shr_exact (k e n : Z) :
  0 ≤ k → 0 ≤ n →
  shr {| shr_m := k * 2 ^ n; shr_r := false; shr_s := false |} e n
  = ({| shr_m := k; shr_r := false; shr_s := false |}, e + n).
Proof.
  intros Hk Hn. destruct n as [|p|p]; [|by cbn [shr]; rewrite shr_iter_exact|lia].
  cbn [shr]. by rewrite Z.pow_0_r, Z.mul_1_r, Z.add_0_r.
Qed.

(** The product of a finite double and [2^96], when the exponent has room:
    the same digits, normalised to 53 bits, at an exponent 96 higher. *)
Lemma mul_q96_finite (m : positive) (e : Z) :
  let d := Zdigits2 (Z.pos m) in
  d ≤ 53 → -1074 ≤ e → e + 43 + d ≤ 971 →
  F64.mul (S754_finite false m e) F64.q96
  = S754_finite false (Z.to_pos (Z.pos m * 2 ^ (53 - d))) (e + 43 + d).
Proof.
  intros d Hd Hlo Hhi.
  assert (1 ≤ d) as Hd1 by (subst d; cbn; lia).
  unfold F64.mul, F64.q96, SFmul, binary_round_aux. cbn [xorb].
  set (m1 := Z.pos m * 2 ^ (53 - d)).
  assert (0 < m1) as Hm1.
  { subst m1. apply Z.mul_pos_pos; [lia|]. apply Z.pow_pos_nonneg; lia. }
  assert (Z.pos (m * 4503599627370496) = m1 * 2 ^ (d - 1)) as HM.
  { subst m1. rewrite Pos2Z.inj_mul, <- Z.mul_assoc, <- Z.pow_add_r by lia.
    replace (53 - d + (d - 1)) with 52 by lia. reflexivity. }
  assert (Zdigits2 m1 = 53) as Hdm1.
  { subst m1. rewrite Zdigits2_mul_pow2 by lia. fold d. lia. }
  assert (Zdigits2 (Z.pos (m * 4503599627370496)) = d + 52) as HdM.
  { rewrite HM, Zdigits2_mul_pow2 by lia. lia. }
  assert (shr_fexp F64.prec F64.emax (Z.pos (m * 4503599627370496)) (e + 44)
            loc_Exact
          = ({| shr_m := m1; shr_r := false; shr_s := false |},
             e + 44 + (d - 1))) as ->.
  { unfold shr_fexp. rewrite HdM. cbn [shr_record_of_loc].
    replace (fexp F64.prec F64.emax (d + 52 + (e + 44)) - (e + 44))
      with (d - 1) by (unfold fexp, emin, F64.prec, F64.emax; lia).
    rewrite HM. apply shr_exact; lia. }
  cbn [shr_m loc_of_shr_record round_nearest_even].
  assert (shr_fexp F64.prec F64.emax m1 (e + 44 + (d - 1)) loc_Exact
          = ({| shr_m := m1; shr_r := false; shr_s := false |},
             e + 44 + (d - 1))) as ->.
  { unfold shr_fexp. rewrite Hdm1. cbn [shr_record_of_loc].
    replace (fexp F64.prec F64.emax (53 + (e + 44 + (d - 1)))
             - (e + 44 + (d - 1)))
      with 0 by (unfold fexp, emin, F64.prec, F64.emax; lia).
    reflexivity. }
  cbn [shr_m].
  destruct m1 as [|q|q] eqn:Hq; [lia| |lia].
  replace (e + 44 + (d - 1) <=? F64.emax - F64.prec) with true
    by (symmetry; apply Z.leb_le; unfold F64.emax, F64.prec; lia).
  cbn [Z.to_pos]. f_equal. lia.
Qed.

(** The float product with [2^96] loses nothing: its floor is the floor of
    the exact product. *)
Lemma mul_q96_floor (x : float) :
  F64.within false 485 513 x →
  F64.floor (F64.mul x F64.q96) = F64.floor_scaled x 96.
Proof.
  destruct x as [s|s| |s m e]; try done.
  intros (-> & [Hlo He] & Hd53 & Hd).
  rewrite mul_q96_finite by lia.
  set (d := Zdigits2 (Z.pos m)) in *.
  assert (1 ≤ d) as Hd1 by (subst d; cbn; lia).
  assert (0 < 2 ^ (53 - d)) as Hpow by (apply Z.pow_pos_nonneg; lia).
  cbn [F64.floor F64.floor_scaled F64.signed].
  rewrite Z2Pos.id by nia.
  destruct (0 <=? e + 43 + d) eqn:H1; destruct (0 <=? e + 96) eqn:H2;
    try apply Z.leb_le in H1; try apply Z.leb_gt in H1;
    try apply Z.leb_le in H2; try apply Z.leb_gt in H2; try lia.
  - rewrite <- Z.mul_assoc, <- Z.pow_add_r by lia. f_equal. f_equal. lia.
  - replace (53 - d) with (e + 96 + - (e + 43 + d)) by lia.
    rewrite Z.pow_add_r, Z.mul_assoc by lia.
    apply Z.div_mul. apply Z.pow_nonzero; lia.
  - replace (- (e + 43 + d)) with (53 - d + - (e + 96)) by lia.
    rewrite Z.pow_add_r by lia.
    rewrite Z.mul_comm. apply Z.div_mul_cancel_l.
    + apply Z.pow_nonzero; lia.
    + lia.
Qed.

Lemma nonneg_real_inv (p : float) :
  F64.nonneg_real p = true →
  F64.valid p = true ∧ F64.is_finite p = true ∧ F64.ge0 p = true.
Proof. unfold F64.nonneg_real. by intros [[??]%andb_true_iff ?]%andb_true_iff. Qed.

Lemma setattr_run {B} (name : string) (v : value) (k : unit → M B) self :
  (setattr name v ≫= k) self = k tt (<[name := v]> self).
Proof. reflexivity. Qed.

Lemma getattr_run {B} (name : string) (v : value) (k : value → M B) self :
  self !! name = Some v → (getattr name ≫= k) self = k v self.
Proof. intros H. unfold mbind, M_bind, bind, getattr. by rewrite H. Qed.

(** ** [set_price_to_sqrtp] *)

(** C3: when the three price fields hold doubles that are finite and not
    negative, [set_price_to_sqrtp] returns, in the order initial, upper,
    lower, the integers [floor(sqrt(price) * 2^96)] computed in double
    arithmetic from the price fields themselves (already square roots),
    and stores them in the three sqrtp fields.  Each of them is [>= 0],
    and since scaling a double by [2^96] is exact here, each is the floor
    of the exact product of the double [sqrt(price)] and [2^96]. *)
Theorem set_price_to_sqrtp_floor (self : obj) (p1 p2 p3 : float) :
  self !! "initial_price" = Some (VFloat p1) →
  self !! "upper_price_bound" = Some (VFloat p2) →
  self !! "lower_price_bound" = Some (VFloat p3) →
  F64.nonneg_real p1 = true →
  F64.nonneg_real p2 = true →
  F64.nonneg_real p3 = true →
  let sqrtp p := F64.floor (F64.mul (F64.sqrt p) F64.q96) in
  PoolConfig.set_price_to_sqrtp self
  = (Ok (VList [VInt (sqrtp p1); VInt (sqrtp p2); VInt (sqrtp p3)]),
     <["lower_price_sqrtp" := VInt (sqrtp p3)]>
       (<["upper_price_sqrtp" := VInt (sqrtp p2)]>
          (<["initial_price_sqrtp" := VInt (sqrtp p1)]> self)))
  ∧ (0 ≤ sqrtp p1 ∧ 0 ≤ sqrtp p2 ∧ 0 ≤ sqrtp p3)
  ∧ sqrtp p1 = F64.floor_scaled (F64.sqrt p1) 96
  ∧ sqrtp p2 = F64.floor_scaled (F64.sqrt p2) 96
  ∧ sqrtp p3 = F64.floor_scaled (F64.sqrt p3) 96.
Proof.
  intros H1 H2 H3 (Hv1 & Hf1 & Hp1)%nonneg_real_inv
    (Hv2 & Hf2 & Hp2)%nonneg_real_inv (Hv3 & Hf3 & Hp3)%nonneg_real_inv sqrtp.
  unfold PoolConfig.set_price_to_sqrtp. cbv zeta.
  destruct (sqrtp_field_run "initial_price" self p1 H1 Hv1 Hf1 Hp1) as [R1 N1].
  fold (sqrtp p1) in R1, N1.
  set (self1 := <["initial_price_sqrtp" := VInt (sqrtp p1)]> self).
  assert (self1 !! "upper_price_bound" = Some (VFloat p2)) as H2'
    by (subst self1; by rewrite lookup_insert_ne).
  destruct (sqrtp_field_run "upper_price_bound" self1 p2 H2' Hv2 Hf2 Hp2)
    as [R2 N2].
  fold (sqrtp p2) in R2, N2.
  set (self2 := <["upper_price_sqrtp" := VInt (sqrtp p2)]> self1).
  assert (self2 !! "lower_price_bound" = Some (VFloat p3)) as H3'
    by (subst self2 self1; by repeat (rewrite lookup_insert_ne by done)).
  destruct (sqrtp_field_run "lower_price_bound" self2 p3 H3' Hv3 Hf3 Hp3)
    as [R3 N3].
  fold (sqrtp p3) in R3, N3.
  split; [|by repeat split; try apply mul_q96_floor, sqrt_within].
  rewrite (bind_ok _ _ _ _ _ R1), setattr_run. fold self1.
  rewrite (bind_ok _ _ _ _ _ R2), setattr_run. fold self2.
  rewrite (bind_ok _ _ _ _ _ R3), setattr_run.
  set (self3 := <["lower_price_sqrtp" := VInt (sqrtp p3)]> self2).
  rewrite (getattr_run "initial_price_sqrtp" (VInt (sqrtp p1)))
    by (subst self3 self2 self1;
        repeat (rewrite lookup_insert_ne by done);
        by rewrite lookup_insert_eq).
  rewrite (getattr_run "upper_price_sqrtp" (VInt (sqrtp p2)))
    by (subst self3 self2;
        repeat (rewrite lookup_insert_ne by done);
        by rewrite lookup_insert_eq).
  rewrite (getattr_run "lower_price_sqrtp" (VInt (sqrtp p3)))
    by (subst self3; by rewrite lookup_insert_eq).
  reflexivity.
Qed.

Lemma set_price_to_sqrtp_floor_witness :
  fst (PoolConfig.set_price_to_sqrtp priced_2000_3000_1000)
  = Ok (VList [VInt 529830655625106588668641935360;
               VInt 586354007083272986007978377216;
               VInt 445532699006677497973940682752]).
Proof.
  destruct (set_price_to_sqrtp_floor priced_2000_3000_1000
              (S754_finite false 6293971818901970 (-47))
              (S754_finite false 7708509705883379 (-47))
              (S754_finite false 8901020307485223 (-48))
              eq_refl eq_refl eq_refl eq_refl eq_refl eq_refl)
    as [Hrun _].
  rewrite Hrun. vm_compute. reflexivity.
Defined.

(** *** Division *)

(** The quotient of two finite doubles is a zero or a finite double while
    its magnitude stays below [2^1023]. *)
Lemma div_within (s1 s2 : bool) (m1 m2 : positive) (e1 e2 E K : Z) :
  e1 - e2 ≤ E →
  Zdigits2 (Z.pos m1) + e1 - (Zdigits2 (Z.pos m2) + e2) + 1 ≤ K →
  -1074 ≤ E → E ≤ 971 → E ≤ K → K ≤ 1023 →
  F64.within (xorb s1 s2) (Z.max E (K - 52)) (Z.max E K + 1)
    (F64.div (S754_finite s1 m1 e1) (S754_finite s2 m2 e2)).
Proof.
  intros HE HK HElo HEhi HEK HKhi.
  unfold F64.div, SFdiv, SFdiv_core_binary.
  set (d1 := Zdigits2 (Z.pos m1)) in *. set (d2 := Zdigits2 (Z.pos m2)) in *.
  assert (1 ≤ d1) by (subst d1; cbn; lia).
  assert (1 ≤ d2) by (subst d2; cbn; lia).
  set (e' := Z.min (fexp F64.prec F64.emax (d1 + e1 - (d2 + e2))) (e1 - e2)).
  assert (e' ≤ e1 - e2) as He' by (subst e'; lia).
  clearbody e'.
  set (sh := e1 - e2 - e').
  assert (0 ≤ sh) as Hsh by (subst sh; lia).
  set (m' := match sh with
             | 0 => Z.pos m1
             | Z.pos _ => Z.shiftl (Z.pos m1) sh
             | Z.neg _ => 0
             end).
  assert (m' = Z.pos m1 * 2 ^ sh) as Hm'.
  { subst m'. destruct sh as [|n|n] eqn:Hn; [lia| |lia].
    apply Z.shiftl_mul_pow2. lia. }
  clearbody m'.
  destruct (Z.div_eucl m' (Z.pos m2)) as [q r] eqn:Hqr.
  assert (q = m' / Z.pos m2) as Hq by (unfold Z.div; by rewrite Hqr).
  pose proof (Zdigits2_gt (Z.pos m1) ltac:(lia)) as Hm1d. fold d1 in Hm1d.
  pose proof (Zdigits2_lower (Z.pos m2) ltac:(lia)) as Hm2d. fold d2 in Hm2d.
  assert (0 < 2 ^ sh) by (apply Z.pow_pos_nonneg; lia).
  assert (0 < 2 ^ (d2 - 1)) by (apply Z.pow_pos_nonneg; lia).
  assert (0 ≤ m' < 2 ^ (d1 + sh)) as Hm'b.
  { rewrite Hm', Z.pow_add_r by lia. nia. }
  assert (0 ≤ q < 2 ^ Z.max 0 (d1 + sh - (d2 - 1))) as Hqb.
  { rewrite Hq. split; [apply Z.div_pos; lia|].
    eapply Z.le_lt_trans; [|apply (div_pow2_lt m' (d1 + sh) (d2 - 1)); lia].
    apply Z.div_le_compat_l; lia. }
  assert (Zdigits2 q ≤ Z.max 0 (d1 + sh - (d2 - 1))) as Hdq
    by (apply Zdigits2_le; lia).
  apply (binary_round_aux_within (xorb s1 s2) q e' _ E K); subst sh; lia.
Qed.

(** ** [set_price_ticks] *)

Lemma real_le0_or_gt0 (p : float) :
  real_number p = true → F64.le0 p = true ∨ F64.gt0 p = true.
Proof.
  intros [_ Hf]%andb_true_iff.
  destruct p as [s|s| |s m e]; try done; [by left|].
  destruct s; [by left|by right].
Qed.

Section TickProperties.

(** The C library's [log], any function on doubles. *)
Variable libm_log : float → float.

Lemma loghelper_positive (p : float) :
  F64.is_finite p = true → F64.gt0 p = true →
  F64.is_finite (libm_log p) = true →
  loghelper libm_log (VFloat p) = Ok (libm_log p).
Proof.
  intros Hf Hp Hr. unfold loghelper, math_1, as_double.
  change (mbind ?k (Ok p)) with (k p). cbv beta zeta.
  assert (m_log libm_log p = libm_log p) as ->
    by (unfold m_log; by rewrite Hf, Hp).
  by destruct (libm_log p).
Qed.

(** On a sane C library every positive finite price has a tick. *)
Lemma tick_of_positive (p : float) :
  libm_sane libm_log →
  real_number p = true → F64.gt0 p = true →
  is_Ok (PoolConfig.tick_of libm_log (VFloat p)).
Proof.
  intros [Hlog (sb & mb & eb & Hbase & Hdb & Hmag)] [Hv Hf]%andb_true_iff Hp.
  destruct (Hlog p Hv Hf Hp) as [s Hnum].
  unfold PoolConfig.tick_of, math_log.
  rewrite (loghelper_positive p) by (done || by destruct (libm_log p)).
  rewrite (loghelper_positive PoolConfig.tick_base)
    by (done || by rewrite Hbase).
  rewrite Hbase.
  change (mbind ?k (Ok ?a)) with (k a). cbv beta.
  unfold float_div. cbn [F64.is_zero].
  change (mbind ?k (Ok ?a)) with (k a). cbv beta.
  destruct (libm_log p) as [sz|si| |sn mn en] eqn:Hl; try done.
  - by eexists.
  - destruct Hnum as (-> & [Hlo Hhi] & Hd53 & Hd).
    pose proof (div_within s sb mn mb en eb 76 76 ltac:(lia) ltac:(lia)
                  ltac:(lia) ltac:(lia) ltac:(lia) ltac:(lia)) as Hq.
    destruct (F64.div (S754_finite s mn en) (S754_finite sb mb eb));
      try done; by eexists.
Qed.

Lemma le0_m_log (p : float) :
  F64.le0 p = true →
  F64.is_nan p = false
  ∧ (m_log libm_log p = S754_nan
     ∨ m_log libm_log p = S754_infinity true ∧ F64.is_finite p = true).
Proof.
  destruct p as [s|s| |s m e]; try done.
  - intros _. split; [done|]. right. by destruct s.
  - destruct s; [|done]. intros _. split; [done|]. by left.
  - destruct s; [|done]. intros _. split; [done|]. by left.
Qed.

(** The logarithm of a number that is not positive is a domain error,
    raised before the base is looked at. *)
Lemma math_log_nonpositive (v base : value) :
  nonpositive v = true →
  math_log libm_log v base = Raise (ValueError MathDomainError).
Proof.
  intros Hv. unfold math_log.
  assert (loghelper libm_log v = Raise (ValueError MathDomainError)) as ->; [|done].
  destruct v as [| |z|p| |]; try done; cbn in Hv.
  - unfold loghelper. by rewrite Hv.
  - unfold loghelper, math_1. cbn.
    destruct (le0_m_log p Hv) as [Hnan [->|[-> Hfin]]]; cbn.
    + by rewrite Hnan.
    + by rewrite Hfin.
Qed.

Lemma tick_field_raise (name : string)
    (self : obj) (v : value) {B} (k : Z → M B) :
  self !! name = Some v → nonpositive v = true →
  ((p ← getattr name;
    l ← lift (math_log libm_log p (VFloat PoolConfig.tick_base));
    lift (math_floor l)) ≫= k) self
  = (Raise (ValueError MathDomainError), self).
Proof.
  intros Hname Hv. apply bind_raise.
  rewrite (getattr_run name v) by done.
  apply bind_raise. unfold lift. by rewrite math_log_nonpositive.
Qed.

Lemma tick_field_ok (name : string)
    (self : obj) (v : value) (t : Z) {B} (k : Z → M B) :
  self !! name = Some v → PoolConfig.tick_of libm_log v = Ok t →
  ((p ← getattr name;
    l ← lift (math_log libm_log p (VFloat PoolConfig.tick_base));
    lift (math_floor l)) ≫= k) self
  = k t self.
Proof.
  intros Hname Ht. apply bind_ok.
  rewrite (getattr_run name v) by done.
  unfold PoolConfig.tick_of in Ht. unfold mbind, M_bind, bind, lift.
  destruct (math_log libm_log v (VFloat PoolConfig.tick_base)) as [l|e];
    cbn in Ht; [|done].
  by rewrite Ht.
Qed.

(** [set_price_ticks] raises the domain error as soon as it reads a price
    that is not positive, provided the ticks before it could be computed. *)
Lemma set_price_ticks_raises
    (self : obj) (v1 v2 v3 : value) :
  self !! "initial_price" = Some v1 →
  self !! "upper_price_bound" = Some v2 →
  self !! "lower_price_bound" = Some v3 →
  nonpositive v1 = true
  ∨ (is_Ok (PoolConfig.tick_of libm_log v1) ∧ nonpositive v2 = true)
  ∨ (is_Ok (PoolConfig.tick_of libm_log v1)
     ∧ is_Ok (PoolConfig.tick_of libm_log v2) ∧ nonpositive v3 = true) →
  fst (PoolConfig.set_price_ticks libm_log self)
  = Raise (ValueError MathDomainError).
Proof.
  intros H1 H2 H3 Hcase. unfold PoolConfig.set_price_ticks.
  destruct Hcase as [N1|[[[t1 T1] N2]|([t1 T1] & [t2 T2] & N3)]].
  - by rewrite (tick_field_raise "initial_price" self v1).
  - rewrite (tick_field_ok "initial_price" self v1 t1) by done.
    rewrite setattr_run.
    rewrite (tick_field_raise "upper_price_bound" _ v2);
      [done| |done].
    by rewrite lookup_insert_ne.
  - rewrite (tick_field_ok "initial_price" self v1 t1) by done.
    rewrite setattr_run.
    rewrite (tick_field_ok "upper_price_bound" _ v2 t2);
      [|by rewrite lookup_insert_ne|done].
    rewrite setattr_run.
    rewrite (tick_field_raise "lower_price_bound" _ v3);
      [done| |done].
    by repeat (rewrite lookup_insert_ne by done).
Qed.

(** C7: when the price fields hold real numbers (finite doubles) and one
    of them is [<= 0], [set_price_ticks] raises the math domain error of
    [math.log] and returns nothing.  The C library's [log] is assumed to be
    sane: finite on positive finite doubles, and not zero at 1.0001. *)
Theorem set_price_ticks_domain_error
    (self : obj) (p1 p2 p3 : float) :
  libm_sane libm_log →
  self !! "initial_price" = Some (VFloat p1) →
  self !! "upper_price_bound" = Some (VFloat p2) →
  self !! "lower_price_bound" = Some (VFloat p3) →
  real_number p1 = true → real_number p2 = true → real_number p3 = true →
  F64.le0 p1 = true ∨ F64.le0 p2 = true ∨ F64.le0 p3 = true →
  fst (PoolConfig.set_price_ticks libm_log self)
  = Raise (ValueError MathDomainError).
Proof.
  intros Hsane H1 H2 H3 R1 R2 R3 Hle.
  apply (set_price_ticks_raises self _ _ _ H1 H2 H3).
  cbn [nonpositive].
  destruct (real_le0_or_gt0 p1 R1) as [|G1]; [by left|right].
  pose proof (tick_of_positive p1 Hsane R1 G1) as T1.
  destruct (real_le0_or_gt0 p2 R2) as [|G2]; [by left|right].
  pose proof (tick_of_positive p2 Hsane R2 G2) as T2.
  destruct Hle as [L|[L|L]]; [| |done].
  - exfalso. by destruct p1 as [|[]| |[]].
  - exfalso. by destruct p2 as [|[]| |[]].
Qed.

(** With positive real prices and a sane C library the method does return
    its three ticks, each [math.floor(math.log(price, 1.0001))] as the
    C library computes it, and stores them in the tick fields. *)
Lemma set_price_ticks_returns
    (self : obj) (p1 p2 p3 : float) :
  libm_sane libm_log →
  self !! "initial_price" = Some (VFloat p1) →
  self !! "upper_price_bound" = Some (VFloat p2) →
  self !! "lower_price_bound" = Some (VFloat p3) →
  real_number p1 = true → real_number p2 = true → real_number p3 = true →
  F64.gt0 p1 = true → F64.gt0 p2 = true → F64.gt0 p3 = true →
  ∃ t1 t2 t3 : Z,
    PoolConfig.tick_of libm_log (VFloat p1) = Ok t1
    ∧ PoolConfig.tick_of libm_log (VFloat p2) = Ok t2
    ∧ PoolConfig.tick_of libm_log (VFloat p3) = Ok t3
    ∧ PoolConfig.set_price_ticks libm_log self
      = (Ok (VList [VInt t1; VInt t2; VInt t3]),
         <["lower_tick" := VInt t3]>
           (<["upper_tick" := VInt t2]> (<["initial_tick" := VInt t1]> self))).
Proof.
  intros Hsane H1 H2 H3 R1 R2 R3 G1 G2 G3.
  destruct (tick_of_positive p1 Hsane R1 G1) as [t1 T1].
  destruct (tick_of_positive p2 Hsane R2 G2) as [t2 T2].
  destruct (tick_of_positive p3 Hsane R3 G3) as [t3 T3].
  exists t1, t2, t3. repeat split; try done.
  unfold PoolConfig.set_price_ticks.
  rewrite (tick_field_ok "initial_price" self _ t1) by done.
  rewrite setattr_run.
  rewrite (tick_field_ok "upper_price_bound" _ (VFloat p2) t2);
    [|by rewrite lookup_insert_ne|done].
  rewrite setattr_run.
  rewrite (tick_field_ok "lower_price_bound" _ (VFloat p3) t3);
    [|by repeat (rewrite lookup_insert_ne by done)|done].
  rewrite setattr_run.
  rewrite (getattr_run "initial_tick" (VInt t1))
    by (repeat (rewrite lookup_insert_ne by done); by rewrite lookup_insert_eq).
  rewrite (getattr_run "upper_tick" (VInt t2))
    by (repeat (rewrite lookup_insert_ne by done); by rewrite lookup_insert_eq).
  rewrite (getattr_run "lower_tick" (VInt t3)) by (by rewrite lookup_insert_eq).
  reflexivity.
Qed.

End TickProperties.

Lemma libm_log_table_sane : libm_sane libm_log_table.
Proof.
  split.
  - intros x _ _ _. exists false. unfold libm_log_table.
    repeat destruct (SFeqb x _); cbn [F64.within];
      try done; repeat split; by vm_compute.
  - exists false, 7378328719195348%positive, (-66).
    split; [by vm_compute|]. split; by vm_compute.
Qed.

Lemma set_price_ticks_domain_error_witness :
  fst (PoolConfig.set_price_ticks libm_log_table priced_2000_0_1000)
  = Raise (ValueError MathDomainError).
Proof.
  apply (set_price_ticks_domain_error libm_log_table priced_2000_0_1000
           (S754_finite false 6293971818901970 (-47))
           (S754_zero false)
           (S754_finite false 8901020307485223 (-48))
           libm_log_table_sane
           eq_refl eq_refl eq_refl eq_refl eq_refl eq_refl).
  right. left. reflexivity.
Defined.

(** On [PoolConfig(2000, 3000, 1000)] with its three square roots in place
    and the tabulated logarithms, the ticks are 38006, 40033 and 34540. *)
Example set_price_ticks_2000_3000_1000 :
  fst (PoolConfig.set_price_ticks libm_log_table priced_2000_3000_1000)
  = Ok (VList [VInt 38006; VInt 40033; VInt 34540]).
Proof. by vm_compute. Qed.

(** ** More on rounding: exact cases *)

(** A mantissa that only carries trailing zero bits beyond its canonical
    form rounds to that canonical form. *)
Lemma binary_round_aux_exact (s : bool) (k n e0 : Z) :
  0 < k → 0 ≤ n →
  fexp F64.prec F64.emax (Zdigits2 k + e0) = e0 → e0 ≤ 971 →
  binary_round_aux F64.prec F64.emax s (k * 2 ^ n) (e0 - n) loc_Exact
  = S754_finite s (Z.to_pos k) e0.
Proof.
  intros Hk Hn Hcan Hhi. unfold binary_round_aux.
  assert (shr_fexp F64.prec F64.emax (k * 2 ^ n) (e0 - n) loc_Exact
          = ({| shr_m := k; shr_r := false; shr_s := false |}, e0)) as ->.
  { unfold shr_fexp. rewrite Zdigits2_mul_pow2 by lia.
    cbn [shr_record_of_loc].
    replace (Zdigits2 k + n + (e0 - n)) with (Zdigits2 k + e0) by lia.
    rewrite Hcan. replace (e0 - (e0 - n)) with n by lia.
    rewrite shr_exact by lia. f_equal. lia. }
  cbn [shr_m loc_of_shr_record round_nearest_even].
  assert (shr_fexp F64.prec F64.emax k e0 loc_Exact
          = ({| shr_m := k; shr_r := false; shr_s := false |}, e0)) as ->.
  { unfold shr_fexp. rewrite Hcan, Z.sub_diag. reflexivity. }
  cbn [shr_m]. destruct k as [|q|q]; [lia| |lia].
  replace (e0 <=? F64.emax - F64.prec) with true
    by (symmetry; apply Z.leb_le; unfold F64.emax, F64.prec; lia).
  reflexivity.
Qed.

Lemma valid_canonical (s : bool) (m : positive) (e : Z) :
  F64.valid (S754_finite s m e) = true →
  fexp F64.prec F64.emax (Zdigits2 (Z.pos m) + e) = e ∧ e ≤ 971.
Proof.
  unfold F64.valid, valid_binary, bounded, canonical_mantissa.
  intros [Hc He]%andb_true_iff. apply Z.eqb_eq in Hc. apply Z.leb_le in He.
  split; [exact Hc|]. unfold F64.emax, F64.prec in He. lia.
Qed.

(** Dividing a double by [1.0] gives it back. *)
Lemma div_one (x : float) :
  F64.valid x = true → F64.is_finite x = true → F64.div x F64.one = x.
Proof.
  intros Hv Hf. destruct x as [s|s| |s m e]; try done.
  { by destruct s. }
  destruct (valid_canonical s m e Hv) as [Hcan Hhi].
  unfold F64.div, F64.one, SFdiv, SFdiv_core_binary.
  change (Zdigits2 4503599627370496) with 53.
  set (d := Zdigits2 (Z.pos m)) in *.
  assert (1 ≤ d) as Hd1 by (subst d; cbn; lia).
  set (e' := Z.min (fexp F64.prec F64.emax (d + e - (53 + -52))) (e - -52)).
  assert (e' ≤ e) as He'.
  { subst e'. revert Hcan. unfold fexp, emin, F64.prec, F64.emax. lia. }
  clearbody e'.
  set (sh := e - -52 - e').
  assert (sh = Z.pos (Z.to_pos sh)) as Hsh by (subst sh; lia).
  rewrite Hsh at 1. cbv iota beta.
  rewrite Z.shiftl_mul_pow2 by lia.
  assert (Z.div_eucl (Z.pos m * 2 ^ sh) 4503599627370496
          = (Z.pos m * 2 ^ (e - e'), 0)) as ->.
  { assert (Z.pos m * 2 ^ sh = Z.pos m * 2 ^ (e - e') * 4503599627370496) as ->.
    { subst sh. replace (e - -52 - e') with (e - e' + 52) by lia.
      rewrite Z.pow_add_r by lia. change (2 ^ 52) with 4503599627370496. ring. }
    pose proof (Z.div_mul (Z.pos m * 2 ^ (e - e')) 4503599627370496 ltac:(lia)) as Hq.
    pose proof (Z.mod_mul (Z.pos m * 2 ^ (e - e')) 4503599627370496 ltac:(lia)) as Hr.
    unfold Z.div in Hq. unfold Z.modulo in Hr.
    destruct (Z.div_eucl _ _) as [q r]. by subst. }
  change (new_location 4503599627370496 0) with loc_Exact.
  replace e' with (e - (e - e')) at 2 by lia.
  rewrite binary_round_aux_exact by (fold d; lia || done).
  cbn [Z.to_pos]. by destruct s.
Qed.

(** The canonical double of a non-zero integer below [2^53] in magnitude:
    its digits shifted up to 53 bits. *)
Lemma small_canonical (p : positive) :
  let d := Zdigits2 (Z.pos p) in
  d ≤ 53 →
  0 < Z.pos p * 2 ^ (53 - d)
  ∧ fexp F64.prec F64.emax (Zdigits2 (Z.pos p * 2 ^ (53 - d)) + (d - 53))
    = d - 53.
Proof.
  intros d Hd. assert (1 ≤ d) by (subst d; cbn; lia).
  assert (0 < 2 ^ (53 - d)) by (apply Z.pow_pos_nonneg; lia).
  split; [lia|].
  rewrite Zdigits2_mul_pow2 by lia. fold d.
  unfold fexp, emin, F64.prec, F64.emax. lia.
Qed.

Lemma iter_xO_pow2 (p n : positive) :
  Z.pos (Pos.iter xO p n) = Z.pos p * 2 ^ Z.pos n.
Proof.
  revert p. induction n as [|n IH] using Pos.peano_ind; intros p.
  - cbn [Pos.iter]. change (2 ^ 1) with 2. lia.
  - rewrite Pos.iter_succ, Pos2Z.inj_xO, IH, Pos2Z.inj_succ, Z.pow_succ_r by lia.
    ring.
Qed.

(** [float(a)] for such an integer. *)
Lemma of_Z_small (s : bool) (p : positive) :
  let d := Zdigits2 (Z.pos p) in
  d ≤ 53 →
  binary_round F64.prec F64.emax s p 0
  = S754_finite s (Z.to_pos (Z.pos p * 2 ^ (53 - d))) (d - 53).
Proof.
  intros d Hd. assert (1 ≤ d) by (subst d; cbn; lia).
  destruct (small_canonical p Hd) as [Hpos Hcan]. fold d in Hpos, Hcan.
  unfold binary_round, shl_align.
  change (Z.pos (digits2_pos p)) with d.
  replace (fexp F64.prec F64.emax (d + 0) - 0) with (d - 53)
    by (unfold fexp, emin, F64.prec, F64.emax; lia).
  destruct (d - 53) as [|n|n] eqn:Hn; [|lia|].
  - replace (53 - d) with 0 in * by lia.
    rewrite Z.pow_0_r, Z.mul_1_r in *.
    pose proof (binary_round_aux_exact s (Z.pos p) 0 0) as Hr.
    rewrite Z.pow_0_r, Z.mul_1_r in Hr. apply Hr; lia || done.
  - replace (fexp F64.prec F64.emax (d + 0)) with (Z.neg n)
      by (unfold fexp, emin, F64.prec, F64.emax; lia).
    rewrite iter_xO_pow2. replace (53 - d) with (Z.pos n) in * by lia.
    pose proof (binary_round_aux_exact s (Z.pos p * 2 ^ Z.pos n) 0 (Z.neg n)) as Hr.
    rewrite Z.pow_0_r, Z.mul_1_r, Z.sub_0_r in Hr.
    apply Hr; lia || done.
Qed.

Lemma div_small_by_one (s : bool) (p : positive) :
  let d := Zdigits2 (Z.pos p) in
  d ≤ 53 →
  F64.div (S754_finite s p 0) (S754_finite false 1 0)
  = S754_finite s (Z.to_pos (Z.pos p * 2 ^ (53 - d))) (d - 53).
Proof.
  intros d Hd. assert (1 ≤ d) as Hd1 by (subst d; cbn; lia).
  destruct (small_canonical p Hd) as [Hpos Hcan]. fold d in Hpos, Hcan.
  unfold F64.div, SFdiv, SFdiv_core_binary.
  change (Zdigits2 1) with 1. fold d.
  replace (Z.min (fexp F64.prec F64.emax (d + 0 - (1 + 0))) (0 - 0))
    with (d - 54) by (unfold fexp, emin, F64.prec, F64.emax; lia).
  assert (0 - 0 - (d - 54) = Z.pos (Z.to_pos (54 - d))) as Hsh by lia.
  rewrite Hsh at 1. cbv iota beta.
  rewrite Z.shiftl_mul_pow2 by lia.
  replace (0 - 0 - (d - 54)) with (54 - d) by lia.
  assert (Z.div_eucl (Z.pos p * 2 ^ (54 - d)) 1
          = (Z.pos p * 2 ^ (54 - d), 0)) as ->.
  { pose proof (Z.div_1_r (Z.pos p * 2 ^ (54 - d))) as Hq.
    pose proof (Z.mod_1_r (Z.pos p * 2 ^ (54 - d))) as Hr.
    unfold Z.div in Hq. unfold Z.modulo in Hr.
    destruct (Z.div_eucl _ _) as [q r]. by subst. }
  change (new_location 1 0) with loc_Exact.
  replace (Z.pos p * 2 ^ (54 - d)) with (Z.pos p * 2 ^ (53 - d) * 2 ^ 1)
    by (rewrite <- Z.mul_assoc, <- Z.pow_add_r by lia; f_equal; f_equal; lia).
  replace (d - 54) with (d - 53 - 1) by lia.
  rewrite binary_round_aux_exact by (lia || done).
  by destruct s.
Qed.

(** [a / 1] for such an integer is [float(a)]. *)
Lemma int_true_divide_one (a : Z) :
  Z.abs a < 2 ^ 53 → int_true_divide a 1 = Ok (F64.of_Z a).
Proof.
  intros Ha. destruct a as [|p|p]; [done| |].
  all: assert (Zdigits2 (Z.pos p) ≤ 53) as Hd
    by (apply Zdigits2_le; [lia|lia|exact Ha]).
  all: unfold F64.of_Z, binary_normalize; rewrite of_Z_small by exact Hd.
  all: unfold int_true_divide; cbn [Z.abs Z.to_pos Z.ltb Z.compare].
  all: by rewrite div_small_by_one by exact Hd.
Qed.

(** ** The bounds [set_prices] reads *)

Lemma bound_double_valid (v : value) (x : float) :
  bound_double v = Some x → F64.valid x = true ∧ F64.is_finite x = true.
Proof.
  destruct v as [| |a|y| |]; try done; cbn [bound_double].
  - destruct (Z.abs a <? 2 ^ 53) eqn:Ha; [|done]. intros [= <-].
    apply Z.ltb_lt in Ha. destruct a as [|p|p]; [done| |].
    all: assert (Zdigits2 (Z.pos p) ≤ 53) as Hd
      by (apply Zdigits2_le; [lia|lia|exact Ha]).
    all: unfold F64.of_Z, binary_normalize; rewrite of_Z_small by exact Hd.
    all: destruct (small_canonical p Hd) as [Hpos Hcan].
    all: split; [|done].
    all: unfold F64.valid, valid_binary, bounded, canonical_mantissa.
    all: change (Z.pos (digits2_pos ?q)) with (Zdigits2 (Z.pos q)).
    all: rewrite Z2Pos.id by exact Hpos.
    all: rewrite Hcan, Z.eqb_refl; cbn [andb]; apply Z.leb_le.
    all: pose proof (Zdigits2_nonneg (Z.pos p)); unfold F64.emax, F64.prec; lia.
  - destruct (F64.valid y && F64.is_finite y) eqn:Hy; [|done].
    intros [= <-]. by apply andb_true_iff.
Qed.

(** A bound divided by [token1_initial = 1] is the bound, as a double. *)
Lemma truediv_one (v : value) (x : float) :
  bound_double v = Some x → truediv v (VInt 1) = Ok x.
Proof.
  intros Hb. pose proof (bound_double_valid v x Hb) as [Hv Hf].
  destruct v as [| |a|y| |]; try done; cbn [bound_double] in Hb.
  - destruct (Z.abs a <? 2 ^ 53) eqn:Ha; [|done]. injection Hb as <-.
    apply Z.ltb_lt in Ha. cbn [truediv]. by apply int_true_divide_one.
  - destruct (F64.valid y && F64.is_finite y); [|done]. injection Hb as <-.
    cbn [truediv as_double].
    change (float_of_int 1) with (Ok F64.one).
    change (mbind ?k (Ok ?a)) with (k a). cbv beta.
    change (mbind ?k (Ok ?a)) with (k a). cbv beta.
    unfold float_div. cbn [F64.is_zero F64.one]. fold F64.one.
    by rewrite div_one.
Qed.

(** The square root of a negative number is a domain error. *)
Lemma math_sqrt_negative (x : float) :
  float_lt0 x = true →
  math_sqrt (VFloat x) = Raise (ValueError MathDomainError).
Proof.
  by destruct x as [[]|[]| |[] m e].
Qed.

(** One price of [set_prices]:
    [math.sqrt(self.<name> / self.token1_initial)]. *)
Lemma price_field_ok (name : string) (self : obj) (v : value) (x : float) :
  self !! name = Some v → self !! "token1_initial" = Some (VInt 1) →
  bound_double v = Some x → F64.ge0 x = true →
  (a ← getattr name; b ← getattr "token1_initial";
   q ← lift (truediv a b); lift (math_sqrt (VFloat q))) self
  = (Ok (F64.sqrt x), self).
Proof.
  intros Hname Hone Hb Hx. destruct (bound_double_valid v x Hb) as [Hv Hf].
  rewrite (getattr_run name v) by done.
  rewrite (getattr_run "token1_initial" (VInt 1)) by done.
  unfold mbind, M_bind, bind, lift. rewrite (truediv_one v x Hb).
  by rewrite math_sqrt_within.
Qed.

Lemma price_field_negative (name : string) (self : obj) (v : value) (x : float) :
  self !! name = Some v → self !! "token1_initial" = Some (VInt 1) →
  bound_double v = Some x → float_lt0 x = true →
  (a ← getattr name; b ← getattr "token1_initial";
   q ← lift (truediv a b); lift (math_sqrt (VFloat q))) self
  = (Raise (ValueError MathDomainError), self).
Proof.
  intros Hname Hone Hb Hx.
  rewrite (getattr_run name v) by done.
  rewrite (getattr_run "token1_initial" (VInt 1)) by done.
  unfold mbind, M_bind, bind, lift. rewrite (truediv_one v x Hb).
  by rewrite math_sqrt_negative.
Qed.

(** ** The square root of a double is a double *)

Lemma loc_of_shr_record_of_loc (m : Z) (l : location) :
  loc_of_shr_record (shr_record_of_loc m l) = l
  ∧ shr_m (shr_record_of_loc m l) = m.
Proof. by destruct l as [|[]]. Qed.

(** Rounding a 53-bit mantissa at an exponent in range: a finite double
    with a canonical mantissa, rounded up or not. *)
Lemma binary_round_aux_53 (s : bool) (q e0 : Z) (l : location) :
  2 ^ 52 ≤ q < 2 ^ 53 → -1074 ≤ e0 → e0 < 971 →
  ∃ (m : positive) (e : Z),
    binary_round_aux F64.prec F64.emax s q e0 l = S754_finite s m e
    ∧ F64.valid (S754_finite s m e) = true
    ∧ e0 ≤ e ∧ Z.pos m * 2 ^ (e - e0) = round_nearest_even q l.
Proof.
  intros Hq Hlo Hhi. unfold binary_round_aux.
  assert (Zdigits2 q = 53) as Hdq by (apply Zdigits2_unique; [lia|exact Hq]).
  assert (shr_fexp F64.prec F64.emax q e0 l = (shr_record_of_loc q l, e0)) as ->.
  { unfold shr_fexp. rewrite Hdq.
    replace (fexp F64.prec F64.emax (53 + e0) - e0) with 0
      by (unfold fexp, emin, F64.prec, F64.emax; lia).
    reflexivity. }
  destruct (loc_of_shr_record_of_loc q l) as [-> ->].
  pose proof (round_nearest_even_bounds q l) as Hrne.
  set (m1 := round_nearest_even q l) in *.
  destruct (Z.eq_dec m1 (2 ^ 53)) as [Heq|Hne].
  - assert (shr_fexp F64.prec F64.emax m1 e0 loc_Exact
            = ({| shr_m := 2 ^ 52; shr_r := false; shr_s := false |}, e0 + 1))
      as ->.
    { unfold shr_fexp. rewrite Heq. change (Zdigits2 (2 ^ 53)) with 54.
      replace (fexp F64.prec F64.emax (54 + e0) - e0) with 1
        by (unfold fexp, emin, F64.prec, F64.emax; lia).
      change (2 ^ 53) with (2 ^ 52 * 2 ^ 1). cbn [shr_record_of_loc].
      by rewrite shr_exact by lia. }
    cbn [shr_m]. change (2 ^ 52) with (Z.pos 4503599627370496).
    replace (e0 + 1 <=? F64.emax - F64.prec) with true
      by (symmetry; apply Z.leb_le; unfold F64.emax, F64.prec; lia).
    eexists _, _. split; [reflexivity|].
    unfold F64.valid, valid_binary, bounded, canonical_mantissa.
    change (Z.pos (digits2_pos 4503599627370496)) with 53.
    split; [|split; [lia|]].
    + apply andb_true_iff. split; [apply Z.eqb_eq|apply Z.leb_le];
        unfold fexp, emin, F64.prec, F64.emax; lia.
    + replace (e0 + 1 - e0) with 1 by lia. by rewrite Heq.
  - assert (Zdigits2 m1 = 53) as Hd1 by (apply Zdigits2_unique; lia).
    assert (shr_fexp F64.prec F64.emax m1 e0 loc_Exact
            = ({| shr_m := m1; shr_r := false; shr_s := false |}, e0)) as ->.
    { unfold shr_fexp. rewrite Hd1.
      replace (fexp F64.prec F64.emax (53 + e0) - e0) with 0
        by (unfold fexp, emin, F64.prec, F64.emax; lia).
      reflexivity. }
    cbn [shr_m]. destruct m1 as [|p|p] eqn:Hm1; [lia| |lia].
    replace (e0 <=? F64.emax - F64.prec) with true
      by (symmetry; apply Z.leb_le; unfold F64.emax, F64.prec; lia).
    eexists _, _. split; [reflexivity|].
    unfold F64.valid, valid_binary, bounded, canonical_mantissa.
    change (Z.pos (digits2_pos p)) with (Zdigits2 (Z.pos p)). rewrite Hd1.
    split; [|split; [lia|]].
    + apply andb_true_iff. split; [apply Z.eqb_eq|apply Z.leb_le];
        unfold fexp, emin, F64.prec, F64.emax; lia.
    + rewrite Z.sub_diag. lia.
Qed.

(** The square root of a positive finite double [m * 2^e], as [SFsqrt]
    computes it: with [c] half the magnitude of the argument, the integer
    square root [q] of the mantissa scaled to 105 or 106 bits, rounded to
    nearest at the exponent [c - 53]. *)
Lemma sqrt_finite_shape (m : positive) (e : Z) :
  F64.valid (S754_finite false m e) = true →
  let c := (Zdigits2 (Z.pos m) + e + 1) / 2 in
  let m' := Z.pos m * 2 ^ (e - 2 * (c - 53)) in
  ∃ (r : Z) (mz : positive) (ez : Z),
    52 ≤ e - 2 * (c - 53)
    ∧ m' = Z.sqrt m' * Z.sqrt m' + r ∧ 0 ≤ r
    ∧ 2 ^ 52 ≤ Z.sqrt m' < 2 ^ 53
    ∧ -536 ≤ c ≤ 512
    ∧ F64.sqrt (S754_finite false m e) = S754_finite false mz ez
    ∧ F64.valid (S754_finite false mz ez) = true
    ∧ c - 53 ≤ ez
    ∧ Z.pos mz * 2 ^ (ez - (c - 53))
      = round_nearest_even (Z.sqrt m') (sqrt_loc (Z.sqrt m') r).
Proof.
  intros Hv c m'.
  apply valid_finite_bounds in Hv as (Hd & Hhi & Hlo).
  unfold F64.sqrt, SFsqrt, SFsqrt_core_binary.
  set (d := Zdigits2 (Z.pos m)) in *.
  assert (1 ≤ d) as Hd1 by (subst d; cbn; lia).
  rewrite (Z.div2_div (d + e + 1)), (Z.div2_div e). fold c.
  assert (d + e ≤ 2 * c ≤ d + e + 1) as Hc
    by (subst c; Z.div_mod_to_equations; lia).
  replace (Z.min (fexp F64.prec F64.emax c) (e / 2)) with (c - 53)
    by (unfold fexp, emin, F64.prec, F64.emax; Z.div_mod_to_equations; lia).
  set (sh := e - 2 * (c - 53)) in *.
  assert (52 ≤ sh) as Hsh by (subst sh; lia).
  assert (match sh with
          | 0 => Z.pos m
          | Z.pos _ => Z.shiftl (Z.pos m) sh
          | Z.neg _ => 0
          end = m') as ->.
  { subst m'. destruct sh as [|n|n] eqn:Hn; [lia| |lia].
    apply Z.shiftl_mul_pow2. lia. }
  pose proof (Zdigits2_gt (Z.pos m) ltac:(lia)) as Hmhi. fold d in Hmhi.
  pose proof (Zdigits2_lower (Z.pos m) ltac:(lia)) as Hmlo. fold d in Hmlo.
  assert (0 < 2 ^ sh) by (apply Z.pow_pos_nonneg; lia).
  assert (2 ^ 104 ≤ m' < 2 ^ 106) as Hm'.
  { subst m'. split.
    - eapply Z.le_trans; [|apply Z.mul_le_mono_nonneg_r; [lia|exact Hmlo]].
      rewrite <- Z.pow_add_r by lia. apply Z.pow_le_mono_r; lia.
    - eapply Z.lt_le_trans; [apply Z.mul_lt_mono_pos_r; [lia|exact Hmhi]|].
      rewrite <- Z.pow_add_r by lia. apply Z.pow_le_mono_r; lia. }
  clearbody m'.
  pose proof (Z.sqrtrem_sqrt m') as Hq.
  pose proof (Z.sqrtrem_spec m' ltac:(lia)) as Hspec.
  destruct (Z.sqrtrem m') as [q r]. cbn [fst] in Hq. subst q.
  destruct Hspec as [Hm'eq [Hr0 _]].
  assert (2 ^ 52 ≤ Z.sqrt m' < 2 ^ 53) as Hq.
  { split.
    - apply Z.sqrt_le_square; [lia|lia|].
      change (2 ^ 52 * 2 ^ 52) with (2 ^ 104). lia.
    - apply Z.sqrt_lt_square; [lia|lia|].
      change (2 ^ 53 * 2 ^ 53) with (2 ^ 106). lia. }
  destruct (binary_round_aux_53 false (Z.sqrt m') (c - 53)
              (sqrt_loc (Z.sqrt m') r) Hq ltac:(lia) ltac:(lia))
    as (mz & ez & Hround & Hvz & Hez & Hval).
  exists r, mz, ez. unfold sqrt_loc in Hround.
  repeat split; try done; lia.
Qed.

(** [math.sqrt] maps a finite double [>= 0] to a finite double [>= 0], and
    a positive one to a positive one. *)
Lemma sqrt_valid (p : float) :
  F64.valid p = true → F64.is_finite p = true → F64.ge0 p = true →
  F64.nonneg_real (F64.sqrt p) = true
  ∧ (F64.gt0 p = true → F64.gt0 (F64.sqrt p) = true).
Proof.
  intros Hv Hf Hp.
  destruct p as [s|s| |s m e]; try done.
  destruct s; [done|].
  destruct (sqrt_finite_shape m e Hv)
    as (r & mz & ez & _ & _ & _ & _ & _ & -> & Hvz & _).
  split; [|intros _; reflexivity].
  unfold F64.nonneg_real. rewrite Hvz. reflexivity.
Qed.

(** ** The three assignments of each method, one after the other *)

Ltac run_steps :=
  repeat first
    [ rewrite lookup_insert_eq
    | rewrite lookup_insert_ne by done
    | progress cbn [fst snd]
    | reflexivity
    | match goal with
      | H : ?x = _ |- context [match ?x with _ => _ end] => rewrite H
      end
    | match goal with
      | |- context [match ?x with _ => _ end] =>
          lazymatch x with
          | context [match _ with _ => _ end] => fail
          | _ => destruct x eqn:?
          end
      end ].

(** [set_price_to_sqrtp] computes the three sqrtp values in order from the
    price fields it finds, assigns each as soon as it is computed, and stops
    at the first failure with the earlier ones assigned. *)
Lemma set_price_to_sqrtp_steps (self : obj) :
  PoolConfig.set_price_to_sqrtp self =
    match read_field "initial_price" sqrtp_of self with
    | Raise e => (Raise e, self)
    | Ok z1 =>
        match read_field "upper_price_bound" sqrtp_of self with
        | Raise e => (Raise e, <["initial_price_sqrtp" := VInt z1]> self)
        | Ok z2 =>
            match read_field "lower_price_bound" sqrtp_of self with
            | Raise e =>
                (Raise e,
                 <["upper_price_sqrtp" := VInt z2]>
                   (<["initial_price_sqrtp" := VInt z1]> self))
            | Ok z3 =>
                (Ok (VList [VInt z1; VInt z2; VInt z3]),
                 <["lower_price_sqrtp" := VInt z3]>
                   (<["upper_price_sqrtp" := VInt z2]>
                      (<["initial_price_sqrtp" := VInt z1]> self)))
            end
        end
    end.
Proof.
  unfold PoolConfig.set_price_to_sqrtp, read_field, sqrtp_of.
  unfold mbind, M_bind, result_mbind, bind, result_bind, getattr, setattr, lift,
    mret, M_ret, ret.
  cbv zeta. run_steps.
Qed.

(** The same for [set_price_ticks]. *)
Lemma set_price_ticks_steps (libm_log : float → float) (self : obj) :
  PoolConfig.set_price_ticks libm_log self =
    match read_field "initial_price" (PoolConfig.tick_of libm_log) self with
    | Raise e => (Raise e, self)
    | Ok t1 =>
        match read_field "upper_price_bound" (PoolConfig.tick_of libm_log) self with
        | Raise e => (Raise e, <["initial_tick" := VInt t1]> self)
        | Ok t2 =>
            match read_field "lower_price_bound" (PoolConfig.tick_of libm_log) self with
            | Raise e =>
                (Raise e,
                 <["upper_tick" := VInt t2]> (<["initial_tick" := VInt t1]> self))
            | Ok t3 =>
                (Ok (VList [VInt t1; VInt t2; VInt t3]),
                 <["lower_tick" := VInt t3]>
                   (<["upper_tick" := VInt t2]>
                      (<["initial_tick" := VInt t1]> self)))
            end
        end
    end.
Proof.
  unfold PoolConfig.set_price_ticks, read_field, PoolConfig.tick_of.
  unfold mbind, M_bind, result_mbind, bind, result_bind, getattr, setattr, lift,
    mret, M_ret, ret.
  run_steps.
Qed.

(** The same for [set_prices], whose first read is [self.initial]. *)
Lemma set_prices_steps (self : obj) :
  PoolConfig.set_prices self =
    match read_bound "initial" self with
    | Raise e => (Raise e, self)
    | Ok x1 =>
        match read_bound "token0_upper_bound" self with
        | Raise e => (Raise e, <["initial_price" := VFloat x1]> self)
        | Ok x2 =>
            match read_bound "token0_lower_bound" self with
            | Raise e =>
                (Raise e,
                 <["upper_price_bound" := VFloat x2]>
                   (<["initial_price" := VFloat x1]> self))
            | Ok x3 =>
                (Ok (VList [VFloat x1; VFloat x2; VFloat x3]),
                 <["lower_price_bound" := VFloat x3]>
                   (<["upper_price_bound" := VFloat x2]>
                      (<["initial_price" := VFloat x1]> self)))
            end
        end
    end.
Proof.
  unfold PoolConfig.set_prices, read_bound, read_field, price_of.
  unfold mbind, M_bind, result_mbind, bind, result_bind, getattr, setattr, lift,
    mret, M_ret, ret.
  run_steps.
Qed.

(** ** One element at a time *)

Lemma sqrtp_of_nonneg (p : float) :
  F64.nonneg_real p = true →
  sqrtp_of (VFloat p) = Ok (F64.floor_scaled (F64.sqrt p) 96).
Proof.
  intros (Hv & Hf & Hp)%nonneg_real_inv.
  pose proof (sqrt_within p Hv Hf Hp) as Hs.
  pose proof (mul_q96_within _ Hs) as Hw.
  apply int_of_float_within in Hw as [Hint _].
  unfold sqrtp_of. rewrite math_sqrt_within by done.
  change (mbind ?k (Ok ?a)) with (k a). cbv beta.
  unfold float_mul, as_double. rewrite float_of_int_q96.
  change (mbind ?k (Ok ?a)) with (k a). cbv beta.
  change (mbind ?k (Ok ?a)) with (k a). cbv beta.
  by rewrite Hint, mul_q96_floor.
Qed.

Lemma sqrtp_of_bad (p : float) :
  F64.valid p = true → F64.nonneg_real p = false →
  sqrtp_of (VFloat p) = Raise (sqrtp_error p).
Proof.
  intros Hv Hn. unfold F64.nonneg_real in Hn. rewrite Hv in Hn.
  destruct p as [[]|[]| |[] m e]; try done; by vm_compute.
Qed.

Lemma tick_of_bad (libm_log : float → float) (p : float) :
  libm_sane libm_log →
  F64.valid p = true → positive_real p = false →
  PoolConfig.tick_of libm_log (VFloat p) = Raise (tick_error p).
Proof.
  intros Hsane Hv Hn. unfold positive_real, real_number in Hn. rewrite Hv in Hn.
  destruct Hsane as [_ (sb & mb & eb & Hbase & _)].
  assert (loghelper libm_log (VFloat PoolConfig.tick_base)
          = Ok (S754_finite sb mb eb)) as Hden.
  { rewrite <- Hbase. apply loghelper_positive; try done. by rewrite Hbase. }
  unfold PoolConfig.tick_of.
  destruct p as [s|[]| |[] m e]; try done.
  - unfold math_log. rewrite Hden.
    change (loghelper libm_log (VFloat (S754_infinity false)))
      with (Ok (S754_infinity false) : result float).
    by destruct sb.
  - unfold math_log. rewrite Hden.
    change (loghelper libm_log (VFloat S754_nan))
      with (Ok S754_nan : result float).
    reflexivity.
Qed.

Lemma read_field_insert {A} (name k : string) (f : value → result A)
    (v : value) (self : obj) :
  k ≠ name → read_field name f (<[k := v]> self) = read_field name f self.
Proof. intros Hne. unfold read_field. by rewrite lookup_insert_ne. Qed.

Lemma read_field_some {A} (name : string) (f : value → result A)
    (v : value) (self : obj) :
  self !! name = Some v → read_field name f self = f v.
Proof. intros H. unfold read_field. by rewrite H. Qed.

Lemma read_bound_one (name : string) (v : value) (self : obj) :
  self !! name = Some v → self !! "token1_initial" = Some (VInt 1) →
  read_bound name self = price_of v (VInt 1).
Proof. intros H H1. unfold read_bound, read_field. by rewrite H, H1. Qed.

Lemma price_of_nonneg (v : value) (x : float) :
  bound_double v = Some x → F64.ge0 x = true →
  price_of v (VInt 1) = Ok (F64.sqrt x).
Proof.
  intros Hb Hx. destruct (bound_double_valid v x Hb) as [Hv Hf].
  unfold price_of. rewrite (truediv_one v x Hb).
  change (mbind ?k (Ok ?a)) with (k a). cbv beta.
  by apply math_sqrt_within.
Qed.

Lemma price_of_negative (v : value) (x : float) :
  bound_double v = Some x → float_lt0 x = true →
  price_of v (VInt 1) = Raise (ValueError MathDomainError).
Proof.
  intros Hb Hx. unfold price_of. rewrite (truediv_one v x Hb).
  change (mbind ?k (Ok ?a)) with (k a). cbv beta.
  by apply math_sqrt_negative.
Qed.

Lemma finite_ge0_or_lt0 (x : float) :
  F64.is_finite x = true → F64.ge0 x = true ∨ float_lt0 x = true.
Proof. destruct x as [[]|[]| |[] m e]; try done; (by left) || (by right). Qed.

(** * Further properties of the methods *)

(** ** A constructed instance *)

(** However it was constructed and whatever methods were called on it, in
    whatever order, an instance still holds the four constructor fields and
    nothing else, and every call ends the same way: [set_prices] in
    [AttributeError] on [initial], [set_price_to_sqrtp] and
    [set_price_ticks] in [AttributeError] on [initial_price],
    [calculate_liqudiry] in [None]. *)
Theorem constructed_instance_inert
    (libm_log : float → float) (a b c : value) (ms : list method) (m : method) :
  let self := calls libm_log ms (PoolConfig.new a b c) in
  (∀ k : string, is_Some (self !! k) ↔ k ∈ constructor_fields)
  ∧ self !! "token0_initial" = Some a
  ∧ self !! "token0_upper_bound" = Some b
  ∧ self !! "token0_lower_bound" = Some c
  ∧ self !! "token1_initial" = Some (VInt 1)
  ∧ call libm_log m self
    = (match m with
       | SetPrices => Raise (AttributeError "initial")
       | SetPriceToSqrtp | SetPriceTicks => Raise (AttributeError "initial_price")
       | CalculateLiqudiry => Ok VNone
       end, self).
Proof.
  cbn zeta. rewrite calls_new.
  split; [|split; [|split; [|split; [|split]]]].
  - intros k. rewrite new_lookup. unfold constructor_fields.
    rewrite !elem_of_cons, elem_of_nil.
    repeat case_decide; subst; (split; [intros Hs|intros Hk]);
      try (by eexists); try (by destruct Hs as [? [=]]); tauto.
  - by rewrite new_lookup.
  - by rewrite new_lookup.
  - by rewrite new_lookup.
  - by rewrite new_lookup.
  - destruct m; cbn [call].
    + apply set_prices_missing_initial. by rewrite new_lookup.
    + apply set_price_to_sqrtp_missing_price. by rewrite new_lookup.
    + apply set_price_ticks_missing_price. by rewrite new_lookup.
    + reflexivity.
Qed.

(** ** [set_prices] once [initial] is bound *)

(** When the caller has bound [initial] (the class never does) and the
    three bounds are numbers [>= 0] that doubles hold exactly, with
    [token1_initial] still 1, [set_prices] returns the doubles
    [sqrt(initial), sqrt(upper), sqrt(lower)] in that order and stores them
    in the price fields; each is a finite double [>= 0]. *)
Theorem set_prices_with_initial
    (self : obj) (v1 v2 v3 : value) (x1 x2 x3 : float) :
  self !! "initial" = Some v1 →
  self !! "token0_upper_bound" = Some v2 →
  self !! "token0_lower_bound" = Some v3 →
  self !! "token1_initial" = Some (VInt 1) →
  bound_double v1 = Some x1 → bound_double v2 = Some x2 →
  bound_double v3 = Some x3 →
  F64.ge0 x1 = true → F64.ge0 x2 = true → F64.ge0 x3 = true →
  PoolConfig.set_prices self
  = (Ok (VList [VFloat (F64.sqrt x1); VFloat (F64.sqrt x2);
                VFloat (F64.sqrt x3)]),
     <["lower_price_bound" := VFloat (F64.sqrt x3)]>
       (<["upper_price_bound" := VFloat (F64.sqrt x2)]>
          (<["initial_price" := VFloat (F64.sqrt x1)]> self)))
  ∧ F64.nonneg_real (F64.sqrt x1) = true
  ∧ F64.nonneg_real (F64.sqrt x2) = true
  ∧ F64.nonneg_real (F64.sqrt x3) = true.
Proof.
  intros H1 H2 H3 Hone B1 B2 B3 G1 G2 G3.
  destruct (bound_double_valid _ _ B1) as [V1 F1].
  destruct (bound_double_valid _ _ B2) as [V2 F2].
  destruct (bound_double_valid _ _ B3) as [V3 F3].
  split; [|by repeat split; apply sqrt_valid].
  rewrite set_prices_steps.
  rewrite (read_bound_one "initial" v1), (price_of_nonneg v1 x1) by done.
  rewrite (read_bound_one "token0_upper_bound" v2), (price_of_nonneg v2 x2)
    by done.
  by rewrite (read_bound_one "token0_lower_bound" v3), (price_of_nonneg v3 x3)
    by done.
Qed.

Lemma set_prices_with_initial_witness :
  fst (PoolConfig.set_prices patched_2000_3000_1000)
  = Ok (VList [VFloat (S754_finite false 6293971818901970 (-47));
               VFloat (S754_finite false 7708509705883379 (-47));
               VFloat (S754_finite false 8901020307485223 (-48))]).
Proof.
  destruct (set_prices_with_initial patched_2000_3000_1000
              (VInt 2000) (VInt 3000) (VInt 1000)
              (F64.of_Z 2000) (F64.of_Z 3000) (F64.of_Z 1000)
              eq_refl eq_refl eq_refl eq_refl eq_refl eq_refl eq_refl
              eq_refl eq_refl eq_refl) as [Hrun _].
  rewrite Hrun. vm_compute. reflexivity.
Defined.

(** In the same situation but with a negative bound among the three,
    [set_prices] raises the math domain error of [math.sqrt]. *)
Theorem set_prices_negative_domain_error
    (self : obj) (v1 v2 v3 : value) (x1 x2 x3 : float) :
  self !! "initial" = Some v1 →
  self !! "token0_upper_bound" = Some v2 →
  self !! "token0_lower_bound" = Some v3 →
  self !! "token1_initial" = Some (VInt 1) →
  bound_double v1 = Some x1 → bound_double v2 = Some x2 →
  bound_double v3 = Some x3 →
  float_lt0 x1 = true ∨ float_lt0 x2 = true ∨ float_lt0 x3 = true →
  fst (PoolConfig.set_prices self) = Raise (ValueError MathDomainError).
Proof.
  intros H1 H2 H3 Hone B1 B2 B3 Hneg.
  destruct (bound_double_valid _ _ B1) as [V1 F1].
  destruct (bound_double_valid _ _ B2) as [V2 F2].
  destruct (bound_double_valid _ _ B3) as [V3 F3].
  rewrite set_prices_steps.
  rewrite (read_bound_one "initial" v1),
    (read_bound_one "token0_upper_bound" v2),
    (read_bound_one "token0_lower_bound" v3) by done.
  destruct (finite_ge0_or_lt0 x1 F1) as [G1|L1];
    [rewrite (price_of_nonneg v1 x1) by done
    |by rewrite (price_of_negative v1 x1)].
  destruct (finite_ge0_or_lt0 x2 F2) as [G2|L2];
    [rewrite (price_of_nonneg v2 x2) by done
    |by rewrite (price_of_negative v2 x2)].
  destruct Hneg as [L|[L|L]].
  - by destruct x1 as [[]|[]| |[] ? ?].
  - by destruct x2 as [[]|[]| |[] ? ?].
  - by rewrite (price_of_negative v3 x3).
Qed.

Lemma set_prices_negative_domain_error_witness :
  fst (PoolConfig.set_prices patched_2000_neg4_1000)
  = Raise (ValueError MathDomainError).
Proof.
  apply (set_prices_negative_domain_error patched_2000_neg4_1000
           (VInt 2000) (VInt (-4)) (VInt 1000)
           (F64.of_Z 2000) (F64.of_Z (-4)) (F64.of_Z 1000)
           eq_refl eq_refl eq_refl eq_refl eq_refl eq_refl eq_refl).
  right. left. reflexivity.
Defined.

(** ** Prices that are not real numbers [>= 0] *)

Lemma first_bad_cases (ok : float → bool) (p1 p2 p3 p : float) :
  first_bad ok [p1; p2; p3] = Some p →
  (ok p1 = false ∧ p = p1)
  ∨ (ok p1 = true ∧ ok p2 = false ∧ p = p2)
  ∨ (ok p1 = true ∧ ok p2 = true ∧ ok p3 = false ∧ p = p3).
Proof.
  cbn [first_bad].
  destruct (ok p1); [|intros [= <-]; by left].
  destruct (ok p2); [|intros [= <-]; right; by left].
  destruct (ok p3); [done|intros [= <-]; right; by right].
Qed.

(** When the price fields hold doubles and the first of them, in the order
    initial, upper, lower, that is not a finite double [>= 0] is [p],
    [set_price_to_sqrtp] raises: the math domain error when [p] is
    negative, [OverflowError] when it is [+inf], and the [ValueError] of
    [int] when it is a NaN. *)
Theorem set_price_to_sqrtp_first_bad_price
    (self : obj) (p1 p2 p3 p : float) :
  self !! "initial_price" = Some (VFloat p1) →
  self !! "upper_price_bound" = Some (VFloat p2) →
  self !! "lower_price_bound" = Some (VFloat p3) →
  F64.valid p1 = true → F64.valid p2 = true → F64.valid p3 = true →
  first_bad F64.nonneg_real [p1; p2; p3] = Some p →
  fst (PoolConfig.set_price_to_sqrtp self) = Raise (sqrtp_error p).
Proof.
  intros H1 H2 H3 V1 V2 V3 Hbad.
  rewrite set_price_to_sqrtp_steps.
  rewrite (read_field_some "initial_price" sqrtp_of (VFloat p1)),
    (read_field_some "upper_price_bound" sqrtp_of (VFloat p2)),
    (read_field_some "lower_price_bound" sqrtp_of (VFloat p3)) by done.
  destruct (first_bad_cases _ _ _ _ _ Hbad)
    as [[N1 ->]|[(G1 & N2 & ->)|(G1 & G2 & N3 & ->)]].
  - by rewrite sqrtp_of_bad.
  - by rewrite (sqrtp_of_nonneg p1), sqrtp_of_bad.
  - by rewrite (sqrtp_of_nonneg p1), (sqrtp_of_nonneg p2), sqrtp_of_bad.
Qed.

Lemma set_price_to_sqrtp_first_bad_price_witness :
  fst (PoolConfig.set_price_to_sqrtp priced_2000_neg_1000)
  = Raise (ValueError MathDomainError).
Proof.
  exact (set_price_to_sqrtp_first_bad_price priced_2000_neg_1000
           (S754_finite false 6293971818901970 (-47))
           (S754_finite true 4503599627370496 (-51))
           (S754_finite false 8901020307485223 (-48))
           (S754_finite true 4503599627370496 (-51))
           eq_refl eq_refl eq_refl eq_refl eq_refl eq_refl eq_refl).
Defined.

(** [set_price_to_sqrtp] is not atomic: when the first price is a real
    number [>= 0] and the second is not, the call raises with
    [initial_price_sqrtp] already assigned its new value and the other two
    sqrtp fields left as they were. *)
Theorem set_price_to_sqrtp_partial_assignment
    (self : obj) (p1 p2 : float) :
  self !! "initial_price" = Some (VFloat p1) →
  self !! "upper_price_bound" = Some (VFloat p2) →
  F64.nonneg_real p1 = true →
  F64.valid p2 = true → F64.nonneg_real p2 = false →
  PoolConfig.set_price_to_sqrtp self
  = (Raise (sqrtp_error p2),
     <["initial_price_sqrtp" := VInt (F64.floor_scaled (F64.sqrt p1) 96)]> self).
Proof.
  intros H1 H2 G1 V2 N2.
  rewrite set_price_to_sqrtp_steps.
  rewrite (read_field_some "initial_price" sqrtp_of (VFloat p1)),
    (read_field_some "upper_price_bound" sqrtp_of (VFloat p2)) by done.
  by rewrite (sqrtp_of_nonneg p1), sqrtp_of_bad.
Qed.

Lemma set_price_to_sqrtp_partial_assignment_witness :
  snd (PoolConfig.set_price_to_sqrtp priced_2000_neg_1000)
    !! "initial_price_sqrtp"
  = Some (VInt 529830655625106588668641935360)
  ∧ snd (PoolConfig.set_price_to_sqrtp priced_2000_neg_1000)
      !! "upper_price_sqrtp" = None.
Proof.
  rewrite (set_price_to_sqrtp_partial_assignment priced_2000_neg_1000
             (S754_finite false 6293971818901970 (-47))
             (S754_finite true 4503599627370496 (-51))
             eq_refl eq_refl eq_refl eq_refl eq_refl).
  split; vm_compute; reflexivity.
Defined.

(** The same reading for [set_price_ticks], on a sane C library: the first
    price that is not a finite double [> 0] decides the exception, the math
    domain error when it is [<= 0], [OverflowError] when it is [+inf], the
    [ValueError] of [math.floor] when it is a NaN. *)
Theorem set_price_ticks_first_bad_price
    (libm_log : float → float) (self : obj) (p1 p2 p3 p : float) :
  libm_sane libm_log →
  self !! "initial_price" = Some (VFloat p1) →
  self !! "upper_price_bound" = Some (VFloat p2) →
  self !! "lower_price_bound" = Some (VFloat p3) →
  F64.valid p1 = true → F64.valid p2 = true → F64.valid p3 = true →
  first_bad positive_real [p1; p2; p3] = Some p →
  fst (PoolConfig.set_price_ticks libm_log self) = Raise (tick_error p).
Proof.
  intros Hsane H1 H2 H3 V1 V2 V3 Hbad.
  rewrite set_price_ticks_steps.
  rewrite (read_field_some "initial_price" _ (VFloat p1)),
    (read_field_some "upper_price_bound" _ (VFloat p2)),
    (read_field_some "lower_price_bound" _ (VFloat p3)) by done.
  assert (∀ q, positive_real q = true →
               is_Ok (PoolConfig.tick_of libm_log (VFloat q))) as Hok.
  { intros q [Hr Hg]%andb_true_iff. by apply tick_of_positive. }
  destruct (first_bad_cases _ _ _ _ _ Hbad)
    as [[N1 ->]|[(G1 & N2 & ->)|(G1 & G2 & N3 & ->)]].
  - by rewrite tick_of_bad.
  - destruct (Hok p1 G1) as [t1 ->]. by rewrite tick_of_bad.
  - destruct (Hok p1 G1) as [t1 ->]. destruct (Hok p2 G2) as [t2 ->].
    by rewrite tick_of_bad.
Qed.

Lemma set_price_ticks_first_bad_price_witness :
  fst (PoolConfig.set_price_ticks libm_log_table priced_2000_neg_1000)
  = Raise (ValueError MathDomainError).
Proof.
  exact (set_price_ticks_first_bad_price libm_log_table priced_2000_neg_1000
           (S754_finite false 6293971818901970 (-47))
           (S754_finite true 4503599627370496 (-51))
           (S754_finite false 8901020307485223 (-48))
           (S754_finite true 4503599627370496 (-51))
           libm_log_table_sane
           eq_refl eq_refl eq_refl eq_refl eq_refl eq_refl eq_refl).
Defined.

Lemma set_price_ticks_returns_witness :
  fst (PoolConfig.set_price_ticks libm_log_table priced_2000_3000_1000)
  = Ok (VList [VInt 38006; VInt 40033; VInt 34540]).
Proof.
  destruct (set_price_ticks_returns libm_log_table priced_2000_3000_1000
              (S754_finite false 6293971818901970 (-47))
              (S754_finite false 7708509705883379 (-47))
              (S754_finite false 8901020307485223 (-48))
              libm_log_table_sane
              eq_refl eq_refl eq_refl eq_refl eq_refl eq_refl
              eq_refl eq_refl eq_refl)
    as (t1 & t2 & t3 & T1 & T2 & T3 & Hrun).
  rewrite Hrun. cbn [fst].
  vm_compute in T1. vm_compute in T2. vm_compute in T3.
  injection T1 as <-. injection T2 as <-. injection T3 as <-. reflexivity.
Defined.

(** ** How the methods compose *)

(** The whole pipeline once [initial] is bound: with positive bounds that
    doubles hold exactly and a sane C library, [set_prices], then
    [set_price_to_sqrtp], then [set_price_ticks] all return.  The sqrtp
    values are the floors of [2^96] times the square root of the square
    root of each bound, and the ticks are those of the square roots. *)
Theorem pipeline_with_initial
    (libm_log : float → float) (self : obj)
    (v1 v2 v3 : value) (x1 x2 x3 : float) :
  libm_sane libm_log →
  self !! "initial" = Some v1 →
  self !! "token0_upper_bound" = Some v2 →
  self !! "token0_lower_bound" = Some v3 →
  self !! "token1_initial" = Some (VInt 1) →
  bound_double v1 = Some x1 → bound_double v2 = Some x2 →
  bound_double v3 = Some x3 →
  F64.gt0 x1 = true → F64.gt0 x2 = true → F64.gt0 x3 = true →
  let priced := snd (PoolConfig.set_prices self) in
  let scaled := snd (PoolConfig.set_price_to_sqrtp priced) in
  ∃ t1 t2 t3 : Z,
    PoolConfig.tick_of libm_log (VFloat (F64.sqrt x1)) = Ok t1
    ∧ PoolConfig.tick_of libm_log (VFloat (F64.sqrt x2)) = Ok t2
    ∧ PoolConfig.tick_of libm_log (VFloat (F64.sqrt x3)) = Ok t3
    ∧ fst (PoolConfig.set_prices self)
      = Ok (VList [VFloat (F64.sqrt x1); VFloat (F64.sqrt x2);
                   VFloat (F64.sqrt x3)])
    ∧ fst (PoolConfig.set_price_to_sqrtp priced)
      = Ok (VList [VInt (F64.floor_scaled (F64.sqrt (F64.sqrt x1)) 96);
                   VInt (F64.floor_scaled (F64.sqrt (F64.sqrt x2)) 96);
                   VInt (F64.floor_scaled (F64.sqrt (F64.sqrt x3)) 96)])
    ∧ fst (PoolConfig.set_price_ticks libm_log scaled)
      = Ok (VList [VInt t1; VInt t2; VInt t3]).
Proof.
  intros Hsane H1 H2 H3 Hone B1 B2 B3 G1 G2 G3.
  destruct (bound_double_valid _ _ B1) as [V1 F1].
  destruct (bound_double_valid _ _ B2) as [V2 F2].
  destruct (bound_double_valid _ _ B3) as [V3 F3].
  assert (∀ x, F64.gt0 x = true → F64.ge0 x = true) as Hge
    by (by intros [[]|[]| |[] ? ?]).
  destruct (sqrt_valid x1 V1 F1 (Hge _ G1)) as [N1 P1].
  destruct (sqrt_valid x2 V2 F2 (Hge _ G2)) as [N2 P2].
  destruct (sqrt_valid x3 V3 F3 (Hge _ G3)) as [N3 P3].
  specialize (P1 G1). specialize (P2 G2). specialize (P3 G3).
  assert (∀ q, F64.nonneg_real q = true → real_number q = true) as Hreal.
  { intros q (? & ? & ?)%nonneg_real_inv. by apply andb_true_iff. }
  destruct (tick_of_positive libm_log _ Hsane (Hreal _ N1) P1) as [t1 T1].
  destruct (tick_of_positive libm_log _ Hsane (Hreal _ N2) P2) as [t2 T2].
  destruct (tick_of_positive libm_log _ Hsane (Hreal _ N3) P3) as [t3 T3].
  exists t1, t2, t3. split; [done|]. split; [done|]. split; [done|].
  cbn zeta. rewrite set_prices_steps.
  rewrite (read_bound_one "initial" v1), (price_of_nonneg v1 x1) by auto.
  rewrite (read_bound_one "token0_upper_bound" v2), (price_of_nonneg v2 x2)
    by auto.
  rewrite (read_bound_one "token0_lower_bound" v3), (price_of_nonneg v3 x3)
    by auto.
  cbn [fst snd]. split; [done|]. rewrite set_price_to_sqrtp_steps.
  rewrite (read_field_some "initial_price" sqrtp_of (VFloat (F64.sqrt x1)))
    by (repeat (rewrite lookup_insert_ne by done); by rewrite lookup_insert_eq).
  rewrite (read_field_some "upper_price_bound" sqrtp_of (VFloat (F64.sqrt x2)))
    by (repeat (rewrite lookup_insert_ne by done); by rewrite lookup_insert_eq).
  rewrite (read_field_some "lower_price_bound" sqrtp_of (VFloat (F64.sqrt x3)))
    by (by rewrite lookup_insert_eq).
  rewrite !sqrtp_of_nonneg by done. cbn [fst snd]. split; [done|].
  rewrite set_price_ticks_steps.
  rewrite (read_field_some "initial_price" _ (VFloat (F64.sqrt x1)))
    by (repeat (rewrite lookup_insert_ne by done); by rewrite lookup_insert_eq).
  rewrite (read_field_some "upper_price_bound" _ (VFloat (F64.sqrt x2)))
    by (repeat (rewrite lookup_insert_ne by done); by rewrite lookup_insert_eq).
  rewrite (read_field_some "lower_price_bound" _ (VFloat (F64.sqrt x3)))
    by (repeat (rewrite lookup_insert_ne by done); by rewrite lookup_insert_eq).
  by rewrite T1, T2, T3.
Qed.

Lemma pipeline_with_initial_witness :
  fst (PoolConfig.set_price_to_sqrtp
         (snd (PoolConfig.set_prices patched_2000_3000_1000)))
  = Ok (VList [VInt 529830655625106588668641935360;
               VInt 586354007083272986007978377216;
               VInt 445532699006677497973940682752]).
Proof.
  destruct (pipeline_with_initial libm_log_table patched_2000_3000_1000
              (VInt 2000) (VInt 3000) (VInt 1000)
              (F64.of_Z 2000) (F64.of_Z 3000) (F64.of_Z 1000)
              libm_log_table_sane
              eq_refl eq_refl eq_refl eq_refl eq_refl eq_refl eq_refl
              eq_refl eq_refl eq_refl)
    as (t1 & t2 & t3 & _ & _ & _ & _ & Hsqrtp & _).
  rewrite Hsqrtp. vm_compute. reflexivity.
Defined.

Lemma read_bound_insert (name k : string) (v : value) (self : obj) :
  k ≠ name → k ≠ "token1_initial" →
  read_bound name (<[k := v]> self) = read_bound name self.
Proof.
  intros Hn H1. unfold read_bound.
  rewrite lookup_insert_ne by done.
  destruct (self !! name); [|done]. by apply read_field_insert.
Qed.

Ltac unfold_runs :=
  repeat first
    [ rewrite set_prices_steps
    | rewrite set_price_to_sqrtp_steps
    | rewrite set_price_ticks_steps
    | rewrite read_field_insert by done
    | rewrite read_bound_insert by done
    | progress cbn [fst snd]
    | match goal with
      | H : ?x = _ |- context [match ?x with _ => _ end] => rewrite H
      end
    | match goal with
      | |- context [match ?x with _ => _ end] =>
          lazymatch x with
          | context [match _ with _ => _ end] => fail
          | _ => destruct x eqn:?
          end
      end ].

Ltac same_dict :=
  apply map_eq; intros ?; rewrite !lookup_insert;
  repeat case_decide; subst; done.

(** [set_price_to_sqrtp] and [set_price_ticks] do not interfere: from any
    state, whether each returns or raises, calling them in one order or the
    other gives each the same outcome and leaves the same instance. *)
Theorem sqrtp_ticks_commute (libm_log : float → float) (self : obj) :
  let a := PoolConfig.set_price_to_sqrtp self in
  let b := PoolConfig.set_price_ticks libm_log (snd a) in
  let b' := PoolConfig.set_price_ticks libm_log self in
  let a' := PoolConfig.set_price_to_sqrtp (snd b') in
  fst a' = fst a ∧ fst b' = fst b ∧ snd a' = snd b.
Proof.
  cbn zeta. unfold_runs; (split; [done|split; [done|]]);
    try reflexivity; same_dict.
Qed.

(** Every method is idempotent: called a second time right after the
    first, from any state, it ends the same way and leaves the instance as
    the first call left it. *)
Theorem call_idempotent
    (libm_log : float → float) (m : method) (self : obj) :
  call libm_log m (snd (call libm_log m self)) = call libm_log m self.
Proof.
  destruct m; cbn [call]; [| | |reflexivity];
    unfold_runs; try reflexivity; f_equal; same_dict.
Qed.

(** ** Order: the square root of doubles is monotone *)

Lemma valid_finite_canonical (s : bool) (m : positive) (e : Z) :
  F64.valid (S754_finite s m e) = true →
  let d := Zdigits2 (Z.pos m) in
  1 ≤ d ≤ 53 ∧ -1074 ≤ e ≤ 971 ∧ (e = -1074 ∨ d = 53)
  ∧ 2 ^ (d - 1) ≤ Z.pos m < 2 ^ d.
Proof.
  intros Hv d. destruct (valid_canonical s m e Hv) as [Hcan Hhi].
  fold d in Hcan. assert (1 ≤ d) by (subst d; cbn; lia).
  unfold fexp, emin, F64.prec, F64.emax in Hcan.
  split; [lia|]. split; [lia|]. split; [lia|].
  split; [by apply Zdigits2_lower|by apply Zdigits2_gt].
Qed.

(** On finite doubles [>= 0], [<=] is the order of the values. *)
Lemma float_le_units (x y : float) :
  F64.nonneg_real x = true → F64.nonneg_real y = true →
  float_le x y = true ↔ units x ≤ units y.
Proof.
  intros (Vx & Fx & Gx)%nonneg_real_inv (Vy & Fy & Gy)%nonneg_real_inv.
  destruct x as [sx|sx| |sx mx ex]; try done;
    destruct y as [sy|sy| |sy my ey]; try done.
  - destruct sy; [done|]. cbn [units]. split; [intros _|done].
    apply Z.mul_nonneg_nonneg; [lia|]. apply Z.pow_nonneg; lia.
  - destruct sx; [done|].
    destruct (valid_finite_canonical _ _ _ Vx) as (_ & Hex & _).
    assert (0 < 2 ^ (ex + 1074)) by (apply Z.pow_pos_nonneg; lia).
    cbn [units]. split; [done|]. destruct sy; cbn [units]; nia.
  - destruct sx; [done|]. destruct sy; [done|].
    destruct (valid_finite_canonical _ _ _ Vx) as (Hdx & Hex & Hnx & Hmx).
    destruct (valid_finite_canonical _ _ _ Vy) as (Hdy & Hey & Hny & Hmy).
    set (dx := Zdigits2 (Z.pos mx)) in *. set (dy := Zdigits2 (Z.pos my)) in *.
    cbn [units]. unfold float_le, SFleb, SFcompare.
    assert (∀ (m m' : positive) (e e' : Z),
              Z.pos m < 2 ^ 53 → 2 ^ 52 ≤ Z.pos m' → -1074 ≤ e → e < e' →
              Z.pos m * 2 ^ (e + 1074) < Z.pos m' * 2 ^ (e' + 1074)) as Hlt.
    { clear. intros m m' e e' Hm Hm' He Hee'.
      replace (e' + 1074) with (e + 1074 + (e' - e)) by lia.
      rewrite (Z.pow_add_r 2 (e + 1074) (e' - e)) by lia.
      assert (0 < 2 ^ (e + 1074)) by (apply Z.pow_pos_nonneg; lia).
      assert (2 ^ 1 ≤ 2 ^ (e' - e)) by (apply Z.pow_le_mono_r; lia).
      change (2 ^ 1) with 2 in *. change (2 ^ 53) with (2 * 2 ^ 52) in Hm.
      apply Z.lt_le_trans with (2 * Z.pos m' * 2 ^ (e + 1074)).
      - apply Z.mul_lt_mono_pos_r; lia.
      - assert (0 < Z.pos m' * 2 ^ (e + 1074)) as HP by lia.
        replace (2 * Z.pos m' * 2 ^ (e + 1074))
          with (2 * (Z.pos m' * 2 ^ (e + 1074))) by ring.
        replace (Z.pos m' * (2 ^ (e + 1074) * 2 ^ (e' - e)))
          with (Z.pos m' * 2 ^ (e + 1074) * 2 ^ (e' - e)) by ring.
        revert HP. generalize (Z.pos m' * 2 ^ (e + 1074)).
        revert H0. generalize (2 ^ (e' - e)). clear. intros. nia. }
    assert (Z.pos mx < 2 ^ 53 ∧ Z.pos my < 2 ^ 53) as [Hx53 Hy53].
    { assert (2 ^ dx ≤ 2 ^ 53) by (apply Z.pow_le_mono_r; lia).
      assert (2 ^ dy ≤ 2 ^ 53) by (apply Z.pow_le_mono_r; lia).
      lia. }
    destruct (Z.compare_spec ex ey) as [->|Hee|Hee].
    + change (Pos.compare_cont Eq mx my) with (Pos.compare mx my).
      assert (0 < 2 ^ (ey + 1074)) by (apply Z.pow_pos_nonneg; lia).
      destruct (Pos.compare_spec mx my) as [->|Hm|Hm]; split; try done; nia.
    + assert (dy = 53) as Hdy53 by lia.
      assert (2 ^ 52 ≤ Z.pos my) by (rewrite Hdy53 in Hmy; apply Hmy).
      pose proof (Hlt mx my ex ey Hx53 ltac:(done) ltac:(lia) Hee).
      split; [lia|done].
    + assert (dx = 53) as Hdx53 by lia.
      assert (2 ^ 52 ≤ Z.pos mx) by (rewrite Hdx53 in Hmx; apply Hmx).
      pose proof (Hlt my mx ey ex Hy53 ltac:(done) ltac:(lia) Hee).
      split; [done|lia].
Qed.

Lemma round_sqrt_loc_bounds (q r : Z) :
  q ≤ round_nearest_even q (sqrt_loc q r) ≤ q + 1.
Proof.
  unfold sqrt_loc. destruct (r =? 0); cbn; [lia|].
  destruct (r <=? q); cbn; lia.
Qed.

(** Rounding the integer square root is monotone in the remainder. *)
Lemma round_sqrt_loc_mono (q r r' : Z) :
  0 ≤ r → r ≤ r' →
  round_nearest_even q (sqrt_loc q r) ≤ round_nearest_even q (sqrt_loc q r').
Proof.
  intros Hr Hrr. unfold sqrt_loc.
  destruct (Z.eqb_spec r 0), (Z.eqb_spec r' 0); cbn; try lia;
    destruct (Z.leb_spec r q), (Z.leb_spec r' q); cbn; lia.
Qed.

(** The value of the square root of a positive finite double, in units of
    [2^-1074]. *)
Lemma sqrt_finite_units (m : positive) (e : Z) :
  F64.valid (S754_finite false m e) = true →
  ∃ (c m' r : Z),
    -536 ≤ c ≤ 512 ∧ 2 ^ 104 ≤ m' < 2 ^ 106 ∧ 0 ≤ r
    ∧ m' = Z.sqrt m' * Z.sqrt m' + r
    ∧ 2 ^ 52 ≤ Z.sqrt m' < 2 ^ 53
    ∧ units (S754_finite false m e) * 2 ^ 104 = m' * 2 ^ (2 * c + 1072)
    ∧ F64.nonneg_real (F64.sqrt (S754_finite false m e)) = true
    ∧ units (F64.sqrt (S754_finite false m e))
      = round_nearest_even (Z.sqrt m') (sqrt_loc (Z.sqrt m') r)
        * 2 ^ (c + 1021).
Proof.
  intros Hv.
  destruct (sqrt_finite_shape m e Hv)
    as (r & mz & ez & Hsh & Hm' & Hr & Hq & Hc & Hsqrt & Hvz & Hez & Hval).
  destruct (valid_finite_canonical _ _ _ Hv) as (_ & He & _).
  set (c := (Zdigits2 (Z.pos m) + e + 1) / 2) in *. clearbody c.
  set (m' := Z.pos m * 2 ^ (e - 2 * (c - 53))) in *.
  exists c, m', r. rewrite Hsqrt.
  split; [done|]. split.
  { assert (2 ^ 52 * 2 ^ 52 ≤ Z.sqrt m' * Z.sqrt m') as Hlo
      by (apply Z.mul_le_mono_nonneg; lia).
    assert (Z.sqrt m' + 1 ≤ 2 ^ 53) as Hq1 by lia.
    assert ((Z.sqrt m' + 1) * (Z.sqrt m' + 1) ≤ 2 ^ 53 * 2 ^ 53) as Hhi
      by (apply Z.mul_le_mono_nonneg; lia).
    pose proof (Z.sqrt_spec m' ltac:(lia)) as Hs.
    change (2 ^ 52 * 2 ^ 52) with (2 ^ 104) in Hlo.
    change (2 ^ 53 * 2 ^ 53) with (2 ^ 106) in Hhi.
    unfold Z.succ in Hs. clearbody m'. lia. }
  split; [done|]. split; [done|]. split; [done|]. split.
  { subst m'. cbn [units]. rewrite <- !Z.mul_assoc. f_equal.
    rewrite <- !Z.pow_add_r by lia. f_equal. lia. }
  split; [unfold F64.nonneg_real; by rewrite Hvz|].
  cbn [units]. rewrite <- Hval. rewrite <- Z.mul_assoc. f_equal.
  rewrite <- Z.pow_add_r by lia. f_equal. lia.
Qed.

(** [math.sqrt] is monotone on the finite doubles [>= 0]. *)
Lemma sqrt_monotone (x y : float) :
  F64.nonneg_real x = true → F64.nonneg_real y = true →
  float_le x y = true →
  float_le (F64.sqrt x) (F64.sqrt y) = true.
Proof.
  intros Hx Hy Hle.
  pose proof Hx as (Vx & Fx & Gx)%nonneg_real_inv.
  pose proof Hy as (Vy & Fy & Gy)%nonneg_real_inv.
  pose proof (sqrt_valid x Vx Fx Gx) as [Nx _].
  pose proof (sqrt_valid y Vy Fy Gy) as [Ny _].
  apply float_le_units; [done|done|].
  apply (float_le_units x y Hx Hy) in Hle.
  destruct x as [sx|sx| |sx mx ex]; try done.
  { destruct y as [sy|sy| |sy my ey]; try done.
    destruct sy; [done|].
    destruct (sqrt_finite_units my ey Vy)
      as (c & m' & r & Hc & _ & _ & _ & Hq & _ & _ & ->).
    pose proof (round_sqrt_loc_bounds (Z.sqrt m') r).
    change (units (F64.sqrt (S754_zero sx))) with 0.
    apply Z.mul_nonneg_nonneg; [lia|]. apply Z.pow_nonneg; lia. }
  destruct sx; [done|].
  destruct (valid_finite_canonical _ _ _ Vx) as (_ & Hex & _).
  assert (0 < units (S754_finite false mx ex)) as Hxpos.
  { cbn [units]. apply Z.mul_pos_pos; [lia|]. apply Z.pow_pos_nonneg; lia. }
  destruct y as [sy|sy| |sy my ey]; try done.
  { cbn [units] in Hle, Hxpos. lia. }
  destruct sy; [done|].
  destruct (sqrt_finite_units mx ex Vx)
    as (c & m' & r & Hc & Hm' & Hr & Hm'eq & Hq & HA & _ & ->).
  destruct (sqrt_finite_units my ey Vy)
    as (c2 & m2 & r2 & Hc2 & Hm2 & Hr2 & Hm2eq & Hq2 & HA2 & _ & ->).
  assert (m' * 2 ^ (2 * c + 1072) ≤ m2 * 2 ^ (2 * c2 + 1072)) as HAA.
  { rewrite <- HA, <- HA2. apply Z.mul_le_mono_nonneg_r; [|done].
    apply Z.pow_nonneg; lia. }
  clear HA HA2 Hle Hxpos Nx Ny Hx Hy Vx Vy Fx Fy Gx Gy Hex.
  pose proof (round_sqrt_loc_bounds (Z.sqrt m') r) as Hb.
  pose proof (round_sqrt_loc_bounds (Z.sqrt m2) r2) as Hb2.
  destruct (Z.lt_trichotomy c c2) as [Hcc|[<-|Hcc]].
  - (* a smaller magnitude: the mantissas cannot cross *)
    apply Z.le_trans with (2 ^ 53 * 2 ^ (c + 1021)).
    { apply Z.mul_le_mono_nonneg_r; [apply Z.pow_nonneg|]; lia. }
    apply Z.le_trans with (2 ^ 52 * 2 ^ (c2 + 1021)).
    { rewrite <- !Z.pow_add_r by lia. apply Z.pow_le_mono_r; lia. }
    apply Z.mul_le_mono_nonneg_r; [apply Z.pow_nonneg|]; lia.
  - (* the same magnitude: compare the integer square roots *)
    assert (0 < 2 ^ (2 * c + 1072)) as Hp by (apply Z.pow_pos_nonneg; lia).
    assert (m' ≤ m2) as Hmm.
    { apply (Z.mul_le_mono_pos_r _ _ (2 ^ (2 * c + 1072))); done. }
    apply Z.mul_le_mono_nonneg_r; [apply Z.pow_nonneg; lia|].
    pose proof (Z.sqrt_le_mono m' m2 Hmm) as Hqq.
    destruct (Z.eq_dec (Z.sqrt m') (Z.sqrt m2)) as [Heq|Hne]; [|lia].
    rewrite <- Heq in *. apply round_sqrt_loc_mono; [done|lia].
  - (* a larger magnitude contradicts [x <= y] *)
    exfalso.
    assert (m2 * 2 ^ (2 * c2 + 1072) < m' * 2 ^ (2 * c + 1072)); [|lia].
    apply Z.lt_le_trans with (2 ^ 106 * 2 ^ (2 * c2 + 1072)).
    { apply Z.mul_lt_mono_pos_r; [apply Z.pow_pos_nonneg|]; lia. }
    apply Z.le_trans with (2 ^ 104 * 2 ^ (2 * c + 1072)).
    { rewrite <- !Z.pow_add_r by lia. apply Z.pow_le_mono_r; lia. }
    apply Z.mul_le_mono_nonneg_r; [apply Z.pow_nonneg|]; lia.
Qed.

(** [int(x * 2**96)] in units of [2^-1074]. *)
Lemma floor_scaled_96 (x : float) :
  F64.nonneg_real x = true →
  F64.floor_scaled x 96 = units x / 2 ^ 978.
Proof.
  intros (Vx & Fx & Gx)%nonneg_real_inv.
  destruct x as [sx|sx| |sx mx ex]; try done.
  destruct sx; [done|].
  destruct (valid_finite_canonical _ _ _ Vx) as (_ & Hex & _).
  cbn [F64.floor_scaled units F64.signed].
  destruct (Z.leb_spec 0 (ex + 96)) as [H|H].
  - replace (ex + 1074) with (ex + 96 + 978) by lia.
    rewrite (Z.pow_add_r 2 (ex + 96) 978), Z.mul_assoc by lia.
    by rewrite Z.div_mul.
  - replace 978 with (- (ex + 96) + (ex + 1074)) at 1 by lia.
    rewrite (Z.pow_add_r 2 (- (ex + 96)) (ex + 1074)) by lia.
    rewrite Z.div_mul_cancel_r; [done| |].
    + apply Z.pow_nonzero; lia.
    + apply Z.pow_nonzero; lia.
Qed.

(** [int(math.sqrt(p) * 2**96)] is monotone in the price [p]. *)
Lemma sqrtp_monotone (p p' : float) :
  F64.nonneg_real p = true → F64.nonneg_real p' = true →
  float_le p p' = true →
  F64.floor_scaled (F64.sqrt p) 96 ≤ F64.floor_scaled (F64.sqrt p') 96.
Proof.
  intros Hp Hp' Hle.
  pose proof Hp as (Vx & Fx & Gx)%nonneg_real_inv.
  pose proof Hp' as (Vy & Fy & Gy)%nonneg_real_inv.
  pose proof (sqrt_valid p Vx Fx Gx) as [Nx _].
  pose proof (sqrt_valid p' Vy Fy Gy) as [Ny _].
  rewrite !floor_scaled_96 by done.
  apply Z.div_le_mono; [done|].
  apply float_le_units; [done|done|]. by apply sqrt_monotone.
Qed.

Lemma units_nonneg (x : float) : 0 ≤ units x.
Proof.
  destruct x as [s|s| |[] m e]; cbn [units]; lia.
Qed.

(** A finite double above one that is [>= 0] is [>= 0]. *)
Lemma float_le_ge0 (x y : float) :
  F64.ge0 x = true → F64.is_finite y = true → float_le x y = true →
  F64.ge0 y = true.
Proof.
  by destruct x as [[]|[]| |[] mx ex], y as [[]|[]| |[] my ey].
Qed.

(** ** Ordered prices stay ordered *)

(** [set_price_to_sqrtp] keeps the order of the prices: when the three
    price fields hold finite doubles [>= 0] with
    [lower <= initial <= upper], the call returns three integers
    [0 <= lower_sqrtp <= initial_sqrtp <= upper_sqrtp] (listed in the order
    initial, upper, lower), which are the values it stores. *)
Theorem set_price_to_sqrtp_ordered (self : obj) (p1 p2 p3 : float) :
  self !! "initial_price" = Some (VFloat p1) →
  self !! "upper_price_bound" = Some (VFloat p2) →
  self !! "lower_price_bound" = Some (VFloat p3) →
  F64.nonneg_real p1 = true → F64.nonneg_real p2 = true →
  F64.nonneg_real p3 = true →
  float_le p3 p1 = true → float_le p1 p2 = true →
  ∃ z1 z2 z3 : Z,
    PoolConfig.set_price_to_sqrtp self
    = (Ok (VList [VInt z1; VInt z2; VInt z3]),
       <["lower_price_sqrtp" := VInt z3]>
         (<["upper_price_sqrtp" := VInt z2]>
            (<["initial_price_sqrtp" := VInt z1]> self)))
    ∧ 0 ≤ z3 ∧ z3 ≤ z1 ∧ z1 ≤ z2.
Proof.
  intros H1 H2 H3 N1 N2 N3 L31 L12.
  exists (F64.floor_scaled (F64.sqrt p1) 96),
    (F64.floor_scaled (F64.sqrt p2) 96), (F64.floor_scaled (F64.sqrt p3) 96).
  split; [|split; [|split]].
  - rewrite set_price_to_sqrtp_steps.
    rewrite (read_field_some "initial_price" sqrtp_of (VFloat p1)),
      (read_field_some "upper_price_bound" sqrtp_of (VFloat p2)),
      (read_field_some "lower_price_bound" sqrtp_of (VFloat p3)) by done.
    by rewrite !sqrtp_of_nonneg.
  - pose proof N3 as (V3 & F3 & G3)%nonneg_real_inv.
    pose proof (sqrt_valid p3 V3 F3 G3) as [Ns _].
    rewrite floor_scaled_96 by done. apply Z.div_pos; [|done].
    by apply units_nonneg.
  - by apply sqrtp_monotone.
  - by apply sqrtp_monotone.
Qed.

Lemma set_price_to_sqrtp_ordered_witness :
  ∃ z1 z2 z3 : Z,
    fst (PoolConfig.set_price_to_sqrtp priced_2000_3000_1000)
    = Ok (VList [VInt z1; VInt z2; VInt z3])
    ∧ 0 ≤ z3 ∧ z3 ≤ z1 ∧ z1 ≤ z2.
Proof.
  destruct (set_price_to_sqrtp_ordered priced_2000_3000_1000
              (S754_finite false 6293971818901970 (-47))
              (S754_finite false 7708509705883379 (-47))
              (S754_finite false 8901020307485223 (-48))
              eq_refl eq_refl eq_refl eq_refl eq_refl eq_refl
              eq_refl eq_refl) as (z1 & z2 & z3 & Hrun & Hord).
  exists z1, z2, z3. rewrite Hrun. split; [reflexivity|exact Hord].
Defined.

(** Once [initial] is bound, [set_prices] keeps the order of the bounds:
    for numbers [>= 0] that doubles hold exactly, with [token1_initial]
    still 1 and [lower <= initial <= upper], the three prices it returns
    and stores satisfy [lower_price_bound <= initial_price <=
    upper_price_bound] as Python compares floats. *)
Theorem set_prices_ordered
    (self : obj) (v1 v2 v3 : value) (x1 x2 x3 : float) :
  self !! "initial" = Some v1 →
  self !! "token0_upper_bound" = Some v2 →
  self !! "token0_lower_bound" = Some v3 →
  self !! "token1_initial" = Some (VInt 1) →
  bound_double v1 = Some x1 → bound_double v2 = Some x2 →
  bound_double v3 = Some x3 →
  F64.ge0 x3 = true → float_le x3 x1 = true → float_le x1 x2 = true →
  ∃ q1 q2 q3 : float,
    PoolConfig.set_prices self
    = (Ok (VList [VFloat q1; VFloat q2; VFloat q3]),
       <["lower_price_bound" := VFloat q3]>
         (<["upper_price_bound" := VFloat q2]>
            (<["initial_price" := VFloat q1]> self)))
    ∧ float_le q3 q1 = true ∧ float_le q1 q2 = true.
Proof.
  intros H1 H2 H3 Hone B1 B2 B3 G3 L31 L12.
  destruct (bound_double_valid _ _ B1) as [V1 F1].
  destruct (bound_double_valid _ _ B2) as [V2 F2].
  destruct (bound_double_valid _ _ B3) as [V3 F3].
  assert (F64.nonneg_real x3 = true) as N3
    by (unfold F64.nonneg_real; by rewrite V3, F3, G3).
  assert (F64.ge0 x1 = true) as G1 by (by apply (float_le_ge0 x3)).
  assert (F64.nonneg_real x1 = true) as N1
    by (unfold F64.nonneg_real; by rewrite V1, F1, G1).
  assert (F64.ge0 x2 = true) as G2 by (by apply (float_le_ge0 x1)).
  assert (F64.nonneg_real x2 = true) as N2
    by (unfold F64.nonneg_real; by rewrite V2, F2, G2).
  exists (F64.sqrt x1), (F64.sqrt x2), (F64.sqrt x3).
  split; [|split; by apply sqrt_monotone].
  rewrite set_prices_steps.
  rewrite (read_bound_one "initial" v1), (price_of_nonneg v1 x1) by done.
  rewrite (read_bound_one "token0_upper_bound" v2), (price_of_nonneg v2 x2)
    by done.
  by rewrite (read_bound_one "token0_lower_bound" v3), (price_of_nonneg v3 x3)
    by done.
Qed.

Lemma set_prices_ordered_witness :
  ∃ q1 q2 q3 : float,
    fst (PoolConfig.set_prices patched_2000_3000_1000)
    = Ok (VList [VFloat q1; VFloat q2; VFloat q3])
    ∧ float_le q3 q1 = true ∧ float_le q1 q2 = true.
Proof.
  destruct (set_prices_ordered patched_2000_3000_1000
              (VInt 2000) (VInt 3000) (VInt 1000)
              (F64.of_Z 2000) (F64.of_Z 3000) (F64.of_Z 1000)
              eq_refl eq_refl eq_refl eq_refl eq_refl eq_refl eq_refl
              eq_refl eq_refl eq_refl) as (q1 & q2 & q3 & Hrun & Hord).
  exists q1, q2, q3. rewrite Hrun. split; [reflexivity|exact Hord].
Defined.

(** ** Values that are not numbers, and a zero divisor *)

Lemma sqrtp_of_non_numeric (v : value) :
  is_numeric v = false → sqrtp_of v = Raise TypeError.
Proof. by destruct v. Qed.

Lemma tick_of_non_numeric (libm_log : float → float) (v : value) :
  is_numeric v = false → PoolConfig.tick_of libm_log v = Raise TypeError.
Proof. by destruct v. Qed.


Lemma price_of_zero (v : value) :
  is_numeric v = true → price_of v (VInt 0) = Raise ZeroDivisionError.
Proof.
  destruct v as [| |a|f| |]; try done.
  intros _. unfold price_of, truediv, int_true_divide. by destruct a.
Qed.

(** A price field that holds something other than a number (the [None] a
    caller may have stored, a string, a list) makes [set_price_to_sqrtp] and
    [set_price_ticks] raise [TypeError] at their first statement, before
    anything is assigned, whatever the C library's [log] is. *)
Theorem non_numeric_price_type_error (self : obj) (v : value) :
  self !! "initial_price" = Some v → is_numeric v = false →
  PoolConfig.set_price_to_sqrtp self = (Raise TypeError, self)
  ∧ ∀ libm_log : float → float,
      PoolConfig.set_price_ticks libm_log self = (Raise TypeError, self).
Proof.
  intros H Hv. split; [|intros libm_log].
  - rewrite set_price_to_sqrtp_steps.
    rewrite (read_field_some "initial_price" sqrtp_of v) by done.
    by rewrite sqrtp_of_non_numeric.
  - rewrite set_price_ticks_steps.
    rewrite (read_field_some "initial_price" _ v) by done.
    by rewrite tick_of_non_numeric.
Qed.

Lemma non_numeric_price_type_error_witness :
  PoolConfig.set_price_to_sqrtp
    (<["initial_price" := VStr "2000"]> priced_2000_3000_1000)
  = (Raise TypeError, <["initial_price" := VStr "2000"]> priced_2000_3000_1000).
Proof.
  exact (proj1 (non_numeric_price_type_error
                  (<["initial_price" := VStr "2000"]> priced_2000_3000_1000)
                  (VStr "2000") eq_refl eq_refl)).
Defined.



(** The divisor of [set_prices] is the attribute [token1_initial], which
    the constructor sets to 1.  When a caller has rebound it to the integer
    0 (and bound [initial] to a number), [set_prices] raises
    [ZeroDivisionError] and assigns nothing. *)
Theorem set_prices_zero_token1 (self : obj) (v : value) :
  self !! "initial" = Some v → is_numeric v = true →
  self !! "token1_initial" = Some (VInt 0) →
  PoolConfig.set_prices self = (Raise ZeroDivisionError, self).
Proof.
  intros H Hv H0. rewrite set_prices_steps.
  unfold read_bound. rewrite H.
  rewrite (read_field_some "token1_initial" _ (VInt 0)) by done.
  by rewrite price_of_zero.
Qed.

Lemma set_prices_zero_token1_witness :
  PoolConfig.set_prices (<["token1_initial" := VInt 0]> patched_2000_3000_1000)
  = (Raise ZeroDivisionError,
     <["token1_initial" := VInt 0]> patched_2000_3000_1000).
Proof.
  exact (set_prices_zero_token1
           (<["token1_initial" := VInt 0]> patched_2000_3000_1000)
           (VInt 2000) eq_refl eq_refl eq_refl).
Defined.

(** ** The ticks and the bracket of the specification *)

(** On a sane C library the tick of a positive finite price is the floor of
    the double quotient [log(price) / log(1.0001)]: neither logarithm, nor
    the division, nor [math.floor] raises. *)
Lemma tick_of_quotient (libm_log : float → float) (p : float) :
  libm_sane libm_log →
  real_number p = true → F64.gt0 p = true →
  PoolConfig.tick_of libm_log (VFloat p) = Ok (quotient_tick libm_log p).
Proof.
  intros [Hlog (sb & mb & eb & Hbase & Hdb & Hmag)] [Hv Hf]%andb_true_iff Hp.
  destruct (Hlog p Hv Hf Hp) as [s Hnum].
  unfold PoolConfig.tick_of, math_log, quotient_tick.
  rewrite (loghelper_positive libm_log p)
    by (done || by destruct (libm_log p)).
  rewrite (loghelper_positive libm_log PoolConfig.tick_base)
    by (done || by rewrite Hbase).
  rewrite Hbase.
  change (mbind ?k (Ok ?a)) with (k a). cbv beta.
  unfold float_div. cbn [F64.is_zero].
  change (mbind ?k (Ok ?a)) with (k a). cbv beta.
  destruct (libm_log p) as [sz|si| |sn mn en] eqn:Hl; try done.
  destruct Hnum as (-> & [Hlo Hhi] & Hd53 & Hd).
  pose proof (div_within s sb mn mb en eb 76 76 ltac:(lia) ltac:(lia)
                ltac:(lia) ltac:(lia) ltac:(lia) ltac:(lia)) as Hq.
  by destruct (F64.div (S754_finite s mn en) (S754_finite sb mb eb)).
Qed.

Lemma libm_log_rounded_sane : libm_sane libm_log_rounded.
Proof.
  split.
  - intros x _ _ _. exists false. unfold libm_log_rounded, libm_log_table.
    repeat destruct (SFeqb x _); cbn [F64.within];
      try done; repeat split; by vm_compute.
  - exists false, 7378328719195348%positive, (-66).
    split; [by vm_compute|]. split; by vm_compute.
Qed.

(** C4, refuted as written: with the correctly rounded logarithms of the
    price 1.0095447887339337 and of 1.0001, [set_price_ticks] returns the
    tick 95 for that price, although [1.0001^95] is above it, for the
    decimal 1.0001 and for the double the code divides by alike.  The
    bracket holds at 94. *)
Lemma set_price_ticks_off_bracket :
  libm_sane libm_log_rounded
  ∧ fst (PoolConfig.set_price_ticks libm_log_rounded priced_below_tick_95)
    = Ok (VList [VInt 95; VInt 40033; VInt 34540])
  ∧ F64.gt0 price_below_tick_95 = true
  ∧ in_tick_bracket (10001 # 10000) 95 (float_value price_below_tick_95)
    = false
  ∧ in_tick_bracket (float_value PoolConfig.tick_base) 95
      (float_value price_below_tick_95) = false
  ∧ in_tick_bracket (10001 # 10000) 94 (float_value price_below_tick_95)
    = true.
Proof.
  split; [exact libm_log_rounded_sane|].
  repeat split; by vm_compute.
Qed.

(** C4 (amended): with the three price fields holding positive real numbers
    and a sane C library, [set_price_ticks] returns
    [[initial_tick, upper_tick, lower_tick]] and stores them, each tick
    being the floor of the double quotient of the C library's [log(price)]
    by its [log(1.0001)].  Nothing is claimed about the bracket
    [1.0001^tick <= price < 1.0001^(tick+1)], which the rounding of the
    logarithms and of the quotient can miss by one. *)
Theorem set_price_ticks_floor_of_quotient
    (libm_log : float → float) (self : obj) (p1 p2 p3 : float) :
  libm_sane libm_log →
  self !! "initial_price" = Some (VFloat p1) →
  self !! "upper_price_bound" = Some (VFloat p2) →
  self !! "lower_price_bound" = Some (VFloat p3) →
  real_number p1 = true → real_number p2 = true → real_number p3 = true →
  F64.gt0 p1 = true → F64.gt0 p2 = true → F64.gt0 p3 = true →
  PoolConfig.set_price_ticks libm_log self
  = (Ok (VList [VInt (quotient_tick libm_log p1);
                VInt (quotient_tick libm_log p2);
                VInt (quotient_tick libm_log p3)]),
     <["lower_tick" := VInt (quotient_tick libm_log p3)]>
       (<["upper_tick" := VInt (quotient_tick libm_log p2)]>
          (<["initial_tick" := VInt (quotient_tick libm_log p1)]> self))).
Proof.
  intros Hsane H1 H2 H3 R1 R2 R3 G1 G2 G3.
  rewrite set_price_ticks_steps.
  rewrite (read_field_some "initial_price" _ (VFloat p1)),
    (read_field_some "upper_price_bound" _ (VFloat p2)),
    (read_field_some "lower_price_bound" _ (VFloat p3)) by done.
  by rewrite !tick_of_quotient.
Qed.

Lemma set_price_ticks_floor_of_quotient_witness :
  fst (PoolConfig.set_price_ticks libm_log_rounded priced_below_tick_95)
  = Ok (VList [VInt 95; VInt 40033; VInt 34540]).
Proof.
  rewrite (set_price_ticks_floor_of_quotient libm_log_rounded
             priced_below_tick_95 price_below_tick_95
             (S754_finite false 7708509705883379 (-47))
             (S754_finite false 8901020307485223 (-48))
             libm_log_rounded_sane
             eq_refl eq_refl eq_refl eq_refl eq_refl eq_refl
             eq_refl eq_refl eq_refl).
  cbn [fst]. vm_compute. reflexivity.
Defined.
